(** * neddns: an authoritative DNS server whose zones live in S3

    A shallow embedding of [neddns.go]: the zone handler and the CNAME
    flattener, the zone fetcher with its staleness filter, the zone loader
    and the start-up and reload sequences of [main], followed by the
    properties of the specification that concern them.

    Side effects (statsd counters, log lines, the upstream exchange, handler
    registration, replies) are recorded as a trace of events; a computation
    ends by returning, by a run-time panic, or by [log.Fatal]. *)

From Stdlib Require Import ZArith Lia Ascii String.
From stdpp Require Import base gmap strings list.

Local Open Scope Z_scope.

(** ** Strings of the Go standard library and of the dns package *)

Module GoStrings.

(** [strings.HasPrefix], returning what follows the prefix. *)
Fixpoint CutPrefix (s prefix : string) : option string :=
  match prefix, s with
  | EmptyString, _ => Some s
  | String a p, String b t => if decide (a = b) then CutPrefix t p else None
  | String _ _, EmptyString => None
  end.

(** [strings.TrimPrefix]: [s] without the leading [prefix], or [s]. *)
Definition TrimPrefix (s prefix : string) : string :=
  match CutPrefix s prefix with
  | Some t => t
  | None => s
  end.

(** [strings.Join]. *)
Fixpoint Join (elems : list string) (sep : string) : string :=
  match elems with
  | [] => ""
  | [e] => e
  | e :: rest => e +:+ sep +:+ Join rest sep
  end.

(** [dns.IsFqdn]: the last byte is a dot. *)
Fixpoint IsFqdn (s : string) : bool :=
  match s with
  | EmptyString => false
  | String a EmptyString => bool_decide (a = "."%char)
  | String _ t => IsFqdn t
  end.

(** [dns.Fqdn]. *)
Definition Fqdn (s : string) : string :=
  if IsFqdn s then s else s +:+ ".".

End GoStrings.
Export GoStrings.

(** ** Time: nanoseconds since the Unix epoch *)

Module GoTime.
Definition Time := Z.
Definition Duration := Z.
Definition Minute : Duration := 60 * 1000000000.
Definition Unix (sec nsec : Z) : Time := sec * 1000000000 + nsec.
Definition Add (t : Time) (d : Duration) : Time := t + d.
Definition Before (t u : Time) : bool := bool_decide (t < u).
End GoTime.
Export GoTime.

(** ** Formatted text ([fmt.Sprintf], [fmt.Errorf], log lines), kept
    structured: a format and its arguments. *)

#[local] Unset Elimination Schemes.
Inductive Text : Type :=
| Str (s : string)
| Int (n : Z)
| Sprintf (format : string) (args : list Text).
#[local] Set Elimination Schemes.

Definition error := Text.

(** ** The records of the dns package that the program touches *)

Definition TypeA : Z := 1.
Definition TypeCNAME : Z := 5.
Definition TypeTXT : Z := 16.
Definition TypeANY : Z := 255.
Definition ClassINET : Z := 1.
Definition RcodeSuccess : Z := 0.
Definition RcodeNameError : Z := 3.
Definition OpcodeQuery : Z := 0.

Definition IP := list Z.

Record RR_Header : Type := mkHeader {
  Name : string;
  Rrtype : Z;
  Class : Z;
  Ttl : Z
}.

Record dns_A : Type := mkA { A_Hdr : RR_Header; A_A : IP }.
Record dns_CNAME : Type := mkCNAME { CNAME_Hdr : RR_Header; Target : string }.
Record dns_TXT : Type := mkTXT { TXT_Hdr : RR_Header; Txt : list string }.

(** [dns.RR] is an interface; its dynamic type is the constructor.  Every
    other record type (SOA, NS, MX, ...) is kept with its rdata as text. *)
Inductive RR : Type :=
| RR_A (r : dns_A)
| RR_CNAME (r : dns_CNAME)
| RR_TXT (r : dns_TXT)
| RR_Other (hdr : RR_Header) (rdata : string).

Definition Header (r : RR) : RR_Header :=
  match r with
  | RR_A a => A_Hdr a
  | RR_CNAME c => CNAME_Hdr c
  | RR_TXT t => TXT_Hdr t
  | RR_Other h _ => h
  end.

Record Question : Type := mkQuestion {
  QName : string;   (* Question.Name *)
  Qtype : Z;
  Qclass : Z
}.

Record Msg : Type := mkMsg {
  Id : Z;
  Response : bool;
  Opcode : Z;
  Authoritative : bool;
  RecursionDesired : bool;
  Rcode : Z;
  Questions : list Question;   (* Msg.Question *)
  Answer : list RR;
  Extra : list RR
}.

Definition set_Authoritative (b : bool) (m : Msg) : Msg :=
  mkMsg (Id m) (Response m) (Opcode m) b (RecursionDesired m) (Rcode m)
        (Questions m) (Answer m) (Extra m).
Definition set_RecursionDesired (b : bool) (m : Msg) : Msg :=
  mkMsg (Id m) (Response m) (Opcode m) (Authoritative m) b (Rcode m)
        (Questions m) (Answer m) (Extra m).
Definition set_Answer (a : list RR) (m : Msg) : Msg :=
  mkMsg (Id m) (Response m) (Opcode m) (Authoritative m) (RecursionDesired m)
        (Rcode m) (Questions m) a (Extra m).
Definition set_Extra (e : list RR) (m : Msg) : Msg :=
  mkMsg (Id m) (Response m) (Opcode m) (Authoritative m) (RecursionDesired m)
        (Rcode m) (Questions m) (Answer m) e.

(** [Msg.SetReply]: a response to [request], carrying its id and its first
    question. *)
Definition SetReply (request : Msg) : Msg :=
  mkMsg (Id request) true OpcodeQuery false (RecursionDesired request)
        RcodeSuccess (take 1 (Questions request)) [] [].

(** [Msg.SetQuestion]: a query with the single question [(z, t, INET)].  The
    library draws a random id; the upstream is a function of the question
    alone here, so the id is left at zero. *)
Definition SetQuestion (z : string) (t : Z) : Msg :=
  mkMsg 0 false OpcodeQuery false true RcodeSuccess
        [mkQuestion z t ClassINET] [] [].

Record ResponseWriter : Type := mkWriter { RemoteAddr : string }.

(** ** The program's own types *)

Record zone : Type := mkZone {
  name : string;
  rrs : list RR
}.

Record config : Type := mkConfig {
  bucket : string;
  port : string;
  region : string;
  prefix : string;
  resolver : string;
  debugOn : bool;
  lastUpdate : Time;
  update : Duration
}.

Definition set_lastUpdate (t : Time) (c : config) : config :=
  mkConfig (bucket c) (port c) (region c) (prefix c) (resolver c)
           (debugOn c) t (update c).

Record zoneFile : Type := mkZoneFile {
  Key : string;
  LastModified : Time
}.

Definition version : string := "0.1.2015111500".

(** What [dns.HandleFunc] registers: the closure over a loaded zone, or the
    version handler. *)
Inductive Handler : Type :=
| ZoneHandler (z : zone)
| VersionHandler.

(** ** Effects *)

Inductive Event : Type :=
| EvIncr (stat : string) (n : Z)                 (* c.stats.Incr *)
| EvGauge (stat : string) (n : Z)                (* c.stats.Gauge *)
| EvLog (line : Text)                            (* log.Printf / log.Println *)
| EvListZones                                    (* getter.ListZones() *)
| EvGetZone (key : string)                       (* getter.GetZone(key) *)
| EvExchange (m : Msg) (addr : string)           (* d.Exchange(m, addr) *)
| EvHandleFunc (pattern : string) (h : Handler)  (* dns.HandleFunc *)
| EvStartServer (port : string)                  (* c.startServer() *)
| EvWriteMsg (m : Msg).                          (* w.WriteMsg(m) *)

Inductive Outcome (A : Type) : Type :=
| Ret (a : A)            (* the call returns *)
| Panic (why : string)   (* run-time panic *)
| Exit (why : Text).     (* log.Fatal: the process exits *)
Arguments Ret {A} a.
Arguments Panic {A} why.
Arguments Exit {A} why.

Definition M (A : Type) : Type := (list Event * Outcome A)%type.

Definition ret {A} (a : A) : M A := ([], Ret a).

Definition bind {A B} (m : M A) (k : A → M B) : M B :=
  match m with
  | (t, Ret a) => let '(t', o) := k a in (t ++ t', o)
  | (t, Panic why) => (t, Panic why)
  | (t, Exit why) => (t, Exit why)
  end.

Notation "'let*' x ':=' c1 'in' c2" := (bind c1 (fun x => c2))
  (at level 10, x pattern, c1 at level 100, c2 at level 200,
   format "'[v' 'let*'  x  :=  c1  'in' '/' c2 ']'").
Notation "c1 ;; c2" := (bind c1 (fun _ => c2))
  (at level 100, c2 at level 200, right associativity).

Definition emit (e : Event) : M unit := ([e], Ret tt).
Definition panic {A} (why : string) : M A := ([], Panic why).
Definition Fatal {A} (why : Text) : M A := ([], Exit why).

Definition trace {A} (m : M A) : list Event := fst m.
Definition outcome {A} (m : M A) : Outcome A := snd m.

Definition Incr (stat : string) (n : Z) : M unit := emit (EvIncr stat n).
Definition Gauge (stat : string) (n : Z) : M unit := emit (EvGauge stat n).
Definition Printf (format : string) (args : list Text) : M unit :=
  emit (EvLog (Sprintf format args)).

Definition nil_dereference : string :=
  "invalid memory address or nil pointer dereference".
Definition index_out_of_range : string := "index out of range".
Definition bad_type_assertion : string := "interface conversion".

(** [err.Error()]: a method call on a nil interface value panics. *)
Definition Error (err : option error) : M Text :=
  match err with
  | Some e => ret e
  | None => panic nil_dereference
  end.

(** [c.debug] *)
Definition debug (c : config) (m : Text) : M unit :=
  if debugOn c then emit (EvLog m) else ret tt.

(** [for _, x := range l { s = f(s, x) }] where the body has effects. *)
Fixpoint foldM {S A : Type} (f : S → A → M S) (l : list A) (s : S) : M S :=
  match l with
  | [] => ret s
  | x :: rest => let* s' := f s x in foldM f rest s'
  end.

(** [l[i]] on a slice. *)
Definition Index {A} (l : list A) (i : nat) : M A :=
  match l !! i with
  | Some x => ret x
  | None => panic index_out_of_range
  end.

(** Field access through a pointer that may be nil. *)
Definition deref {A B} (p : option A) (field : A → B) : M B :=
  match p with
  | Some x => ret (field x)
  | None => panic nil_dereference
  end.

Definition WriteMsg (w : ResponseWriter) (m : Msg) : M unit :=
  emit (EvWriteMsg m).

(** ** The query engine *)

Section QueryEngine.

(** The upstream resolver, [dns.Client.Exchange(m, addr)], as a function
    of the query and of the resolver's address: the reply (or nil) and the
    error (or nil); the round-trip time is dropped. *)
Variable Exchange : Msg → string → option Msg * option error.

(** [RR.String()] and the tables [dns.TypeToString], [dns.ClassToString]. *)
Variable RR_String : RR → string.
Variable TypeToString : Z → string.
Variable ClassToString : Z → string.

Definition exchange (m : Msg) (addr : string)
  : M (option Msg * option error) :=
  emit (EvExchange m addr) ;; ret (Exchange m addr).

(** The body of the loop of [flattenCNAME]: an upstream answer whose
    dynamic type is [*dns.A] adds one synthesized record. *)
Definition flattenAnswer (h : RR_Header) (answers : list RR) (a : RR)
  : list RR :=
  match a with
  | RR_A r =>
      let out := mkA (mkHeader (Name h) TypeA ClassINET 300) (A_A r) in
      answers ++ [RR_A out]
  | _ => answers
  end.

Definition flattenCNAME (c : config) (in_ : dns_CNAME)
  : M (option (list RR) * option error) :=
  let h := CNAME_Hdr in_ in
  let m := set_RecursionDesired true (SetQuestion (Target in_) TypeA) in
  let* (record, err) := exchange m (resolver c) in
  match err with
  | Some e => ret (None, Some e)
  | None =>
      if match record with
         | None => true
         | Some r => bool_decide (Rcode r = RcodeNameError)
                     || negb (bool_decide (Rcode r = RcodeSuccess))
         end
      then
        let* rcode := deref record Rcode in
        let* msg := Error err in
        ret (None,
             Some (Sprintf "Record error code %s: %s" [Int rcode; msg]))
      else
        let* upstream := deref record Answer in
        ret (Some (fold_left (flattenAnswer h) upstream []), None)
  end.

(** The type assertion of [record] to a [*dns.CNAME]. *)
Definition assert_CNAME (record : RR) : M dns_CNAME :=
  match record with
  | RR_CNAME r => ret r
  | _ => panic bad_type_assertion
  end.

(** The two slices the handler's loop appends to: [m.Answer] and the texts
    [answers] of the debug line. *)
Definition scan_state : Type := (list RR * list string)%type.

Definition append_answer (txt_prefix : string) (st : scan_state) (record : RR)
  : scan_state :=
  (st.1 ++ [record], st.2 ++ [txt_prefix +:+ RR_String record]).

(** The body of the loop of [zoneHandler] over [z.rrs]. *)
Definition scan_record (z : zone) (c : config) (q : Question)
    (st : scan_state) (record : RR) : M scan_state :=
  let h := Header record in
  if negb (bool_decide (QName q = Name h)) then ret st
  else
    if bool_decide (Qtype q = TypeA) && bool_decide (Rrtype h = TypeCNAME)
    then
      if bool_decide (QName q = Fqdn (name z)) then
        let* in_ := assert_CNAME record in
        let* (flat, err) := flattenCNAME c in_ in
        match err, flat with
        | None, Some flat => ret (fold_left (append_answer "(FLAT)") flat st)
        | _, _ =>
            let* msg := Error err in
            Printf "flattenCNAME error: %s" [msg] ;;
            ret st
        end
      else ret (append_answer "" st record)
    else
      if negb (bool_decide (Qtype q = Rrtype h))
         && negb (bool_decide (Qtype q = TypeANY))
      then ret st
      else ret (append_answer "" st record).

Definition zoneHandler (z : zone) (c : config) (w : ResponseWriter)
    (req : Msg) : M unit :=
  Incr "query.request" 1 ;;
  let m := set_Answer [] (set_Authoritative true (SetReply req)) in
  if negb (bool_decide (length (Questions req) = 1%nat)) then
    Incr "query.error" 1 ;;
    Printf "Warning: len(req.Question) != 1" []
  else
    let* q := Index (Questions req) 0 in
    let questions := [QName q +:+ "[" +:+ TypeToString (Qtype q) +:+ "]"] in
    if negb (bool_decide (Qclass q = ClassINET)) then
      Incr "query.error" 1 ;;
      Printf "Warning: skipping unhandled class: %s"
             [Str (ClassToString (Qclass q))]
    else
      let* st := foldM (scan_record z c q) (rrs z) (Answer m, []) in
      debug c (Sprintf "Query [%s] %s -> %s "
                 [Str (RemoteAddr w); Str (Join questions ",");
                  Str (Join st.2 ",")]) ;;
      Incr "query.answer" 1 ;;
      WriteMsg w (set_Answer st.1 m).

(** The closure registered by [registerVersionHandler]. *)
Definition versionHandler (w : ResponseWriter) (req : Msg) : M unit :=
  let m := SetReply req in
  let* q0 := Index (Questions req) 0 in
  let* isVersion :=
    (if bool_decide (QName q0 = ".") then
       let* q0' := Index (Questions req) 0 in
       ret (bool_decide (Qtype q0' = TypeTXT))
     else ret false) in
  if isVersion : bool then
    let* mq := Index (Questions m) 0 in
    let answer :=
      RR_TXT (mkTXT (mkHeader (QName mq) TypeTXT ClassINET 0)
                    ["v" +:+ version]) in
    let* mq' := Index (Questions m) 0 in
    let extra :=
      RR_TXT (mkTXT (mkHeader (QName mq') TypeTXT ClassINET 0)
                    ["NedDNS"]) in
    WriteMsg w (set_Extra [extra]
                  (set_Answer [answer] (set_Authoritative true m)))
  else WriteMsg w m.


End QueryEngine.

(** ** The handler registry of the dns package

    [dns.HandleFunc(pattern, h)] installs [h] under [pattern], replacing
    what was there; the registry is the store of active zones, keyed here
    by the pattern as the program passes it.  It is global state: its
    content after a run is the initial content with the run's registrations
    replayed in order. *)

Definition register (mux : gmap string Handler) (e : Event)
  : gmap string Handler :=
  match e with
  | EvHandleFunc pattern h => <[pattern := h]> mux
  | _ => mux
  end.

Definition registered (t : list Event) (mux : gmap string Handler)
  : gmap string Handler :=
  fold_left register t mux.

Definition is_zone (h : Handler) : bool :=
  match h with
  | ZoneHandler _ => true
  | VersionHandler => false
  end.

(** The zones a registry serves. *)
Definition served_zones (mux : gmap string Handler) : gmap string Handler :=
  filter (λ kv, is_zone kv.2 = true) mux.

(** ** Fetching zones *)

(** Go's [(value, err)] where exactly one of the two is set. *)
Inductive result (A : Type) : Type :=
| Ok (a : A)
| Err (e : error).
Arguments Ok {A} a.
Arguments Err {A} e.

(** An [io.ReadCloser], by what [ioutil.ReadAll] gets out of it. *)
Record ReadCloser : Type := mkReader { ReadAll : result string }.

(** [type zoneGetter interface] abstracts calls to AWS S3. *)
Class zoneGetter (G : Type) : Type := {
  ListZones : G → result (list zoneFile);
  GetZone : G → string → result ReadCloser
}.

(** The part of the S3 client that [s3getter] calls. *)
Record S3Object : Type := mkObject {
  Object_Key : string;
  Object_LastModified : Time
}.

Record ListObjectsInput : Type := mkListInput {
  li_Region : string;
  li_Bucket : string;
  li_Delimiter : string;
  li_Prefix : string
}.

Record ListObjectsOutput : Type := mkListOutput {
  Contents : option (list S3Object)    (* a slice, possibly nil *)
}.

Record s3getter : Type := mkS3getter {
  s3_region : string;
  s3_bucket : string;
  s3_prefix : string
}.

Section S3.

(** The service behind [connection.ListObjects] and
    [connection.GetObject]. *)
Variable ListObjects : ListObjectsInput → result ListObjectsOutput.
Variable GetObject : string → string → string → result ReadCloser.

Definition s3_ListZones (s : s3getter) : result (list zoneFile) :=
  let q := mkListInput (s3_region s) (s3_bucket s) "/" (s3_prefix s) in
  match ListObjects q with
  | Err e => Err e
  | Ok resp =>
      match Contents resp with
      | None => Err (Sprintf "Zone directory empty" [])
      | Some contents =>
          if bool_decide (length contents < 1)%nat
          then Err (Sprintf "No zones found" [])
          else Ok (fold_left
                     (λ zones k,
                        zones ++ [mkZoneFile (Object_Key k)
                                             (Object_LastModified k)])
                     contents [])
      end
  end.

Definition s3_GetZone (s : s3getter) (zoneName : string)
  : result ReadCloser :=
  GetObject (s3_region s) (s3_bucket s) zoneName.

(** [s3getter] implements the [zoneGetter] interface for AWS S3. *)
Definition s3getter_zoneGetter : zoneGetter s3getter :=
  {| ListZones := s3_ListZones; GetZone := s3_GetZone |}.

End S3.

(** What the zone-file parser sends on the channel of [dns.ParseZone]. *)
Inductive Token : Type :=
| TokenRR (rr : RR)
| TokenError (e : error).

Inductive Trigger : Type := UpdateSignal | UpdateTimeout.

Section Zones.

Context {G : Type} `{zoneGetter G}.

(** [dns.ParseZone(strings.NewReader(f), origin, file)]: the tokens of
    the zone text, in order. *)
Variable ParseZone : string → string → string → list Token.

(** The order in which [range] visits a map; Go leaves it unspecified. *)
Variable range : gmap string string → list (string * string).

(** The loop of [getZones] over the listing. *)
Fixpoint getZones_range (c : config) (getter : G) (resp : list zoneFile)
    (zones : gmap string string) : M (gmap string string * option error) :=
  match resp with
  | [] => ret (zones, None)
  | k :: rest =>
      if bool_decide (Key k = prefix c) then
        getZones_range c getter rest zones
      else if Before (LastModified k) (Add (lastUpdate c) (-1 * Minute))
      then getZones_range c getter rest zones
      else
        emit (EvGetZone (Key k)) ;;
        match GetZone getter (Key k) with
        | Err e => ret (zones, Some e)
        | Ok zoneData =>
            match ReadAll zoneData with
            | Err e => ret (zones, Some e)
            | Ok b =>
                getZones_range c getter rest
                  (<[TrimPrefix (Key k) (prefix c) := b]> zones)
            end
        end
  end.

(** [getZones] returns the map and the error, and leaves [c.lastUpdate] at
    the current time when it succeeds. *)
Definition getZones (c : config) (getter : G) (now : Time)
  : M (config * gmap string string * option error) :=
  emit EvListZones ;;
  match ListZones getter with
  | Err e => ret (c, ∅, Some e)
  | Ok resp =>
      let* (zones, err) := getZones_range c getter resp ∅ in
      match err with
      | Some e => ret (c, zones, Some e)
      | None => ret (set_lastUpdate now c, zones, None)
      end
  end.

(** The inner loop of [loadZones] over the parser's tokens. *)
Fixpoint parse_range (n : string) (tokens : list Token) (z : zone)
  : M zone :=
  match tokens with
  | [] => ret z
  | TokenError e :: _ => Fatal (Sprintf "Error parsing zone %s: %s" [Str n; e])
  | TokenRR rr :: rest => parse_range n rest (mkZone (name z) (rrs z ++ [rr]))
  end.

(** The body of the loop of [loadZones]. *)
Definition loadZone (c : config) (nf : string * string) : M unit :=
  let '(n, f) := nf in
  debug c (Sprintf "Parsing zone %s" [Str n]) ;;
  let* z := parse_range n (ParseZone f n n) (mkZone n []) in
  emit (EvHandleFunc n (ZoneHandler z)) ;;
  debug c (Sprintf "Registered handler for zone %s" [Str n]).

Definition loadZones (c : config) (zones : gmap string string)
  : M (option error) :=
  foldM (λ _ nf, loadZone c nf) (range zones) tt ;;
  ret None.

Definition registerVersionHandler : M unit :=
  emit (EvHandleFunc "." VersionHandler).

Definition startServer (c : config) : M unit :=
  emit (EvStartServer (port c)).

(** [main] from the first fetch to the running server; [c] is what
    [parseArgs] returned. *)
Definition startup (c : config) (getter : G) (now : Time) : M config :=
  debug c (Str "Fetching zones...") ;;
  let* (c, z, err) := getZones c getter now in
  match err with
  | Some e => Fatal e
  | None =>
      Gauge "zones" (Z.of_nat (size z)) ;;
      debug c (Sprintf "Fetched %d zones..." [Int (Z.of_nat (size z))]) ;;
      debug c (Str "Loading zones...") ;;
      let* err := loadZones c z in
      match err with
      | Some e => Fatal e
      | None =>
          registerVersionHandler ;;
          debug c (Str "Starting server...") ;;
          startServer c ;;
          Printf "DNS server running on TCP/UDP port %s (v%s)"
                 [Str (port c); Str version] ;;
          Incr "started" 1 ;;
          ret c
      end
  end.

(** One turn of the update loop of [main]. *)
Definition reload (c : config) (getter : G) (why : Trigger) (now : Time)
  : M config :=
  debug c (Str match why with
               | UpdateSignal => "Update signal... fetching updating zones"
               | UpdateTimeout => "Update timeout... fetching updating zones"
               end) ;;
  let* (c, z, err) := getZones c getter now in
  match err with
  | Some e => Fatal e
  | None =>
      debug c (Sprintf "Fetched %d updated zones" [Int (Z.of_nat (size z))]) ;;
      (if bool_decide (0 < size z)%nat then
         Incr "zoneupdates" (Z.of_nat (size z)) ;;
         debug c (Sprintf "Reloading %d zones now" [Int (Z.of_nat (size z))]) ;;
         let* err := loadZones c z in
         match err with
         | Some e => Fatal e
         | None => ret tt
         end
       else ret tt) ;;
      debug c (Str "Updated zones successfully") ;;
      ret c
  end.

End Zones.

(** ** The command line *)

(** What docopt hands over under an element of the usage: the argument of
    an option or a positional, the state of a flag, or nil for an option
    that was not given and has no default. *)
Inductive Value : Type :=
| VString (s : string)
| VBool (b : bool)
| VNil.

(** [strings.HasSuffix] *)
Definition HasSuffix (s suffix : string) : bool :=
  bool_decide (list_ascii_of_string suffix
               `suffix_of` list_ascii_of_string s).

(** The zero [time.Time]: January 1, year 1. *)
Definition zero_Time : Time := Unix (-62135596800) 0.

(** [config] in full: the fields the engine reads, and those that only
    [main] and [parseArgs] touch. *)
Record settings : Type := mkSettings {
  engine : config;
  awsKeyId : string;
  awsSecret : string;
  logfile : string;
  statsdServer : string;
  statsdPrefix : string
}.

(** [args[k]]: a key that is not in the map gives nil. *)
Definition arg (args : gmap string Value) (k : string) : Value :=
  default VNil (args !! k).

(** [v.(string)] and [v.(bool)]: a type assertion with one result panics
    when it fails. *)
Definition string_of (v : Value) : M string :=
  match v with
  | VString s => ret s
  | _ => panic bad_type_assertion
  end.

Definition bool_of (v : Value) : M bool :=
  match v with
  | VBool b => ret b
  | _ => panic bad_type_assertion
  end.

(** [arg, ok := v.(string)] *)
Definition string_ok (v : Value) : option string :=
  match v with
  | VString s => Some s
  | _ => None
  end.

Section CommandLine.

(** What [docopt.Parse] returns on this command line, [time.ParseDuration]
    and the environment. *)
Variable Parse : result (gmap string Value).
Variable ParseDuration : string → Duration * option error.
Variable Getenv : string → string.

Definition parseArgs : M (settings * option error) :=
  match Parse with
  | Err e =>
      ret (mkSettings (mkConfig "" "" "" "" "" false zero_Time 0)
                      "" "" "" "" "", Some e)
  | Ok args =>
      let lastUpdate := Unix 0 0 in
      let* bucket := string_of (arg args "<bucket>") in
      let* port := string_of (arg args "--port") in
      let* region := string_of (arg args "--region") in
      let* debugOn := bool_of (arg args "--debug") in
      let resolver := match string_ok (arg args "--resolver") with
                      | Some a => a
                      | None => "8.8.8.8:53"
                      end in
      let logfile := match string_ok (arg args "--log") with
                     | Some a => a
                     | None => ""
                     end in
      let prefix := match string_ok (arg args "--prefix") with
                    | Some a => a
                    | None => ""
                    end in
      let* secs := string_of (arg args "--update") in
      let '(update, err) := ParseDuration (secs +:+ "s") in
      let c := mkConfig bucket port region prefix resolver debugOn
                        lastUpdate update in
      match err with
      | Some e => ret (mkSettings c "" "" logfile "" "", Some e)
      | None =>
          let awsKeyId := match string_ok (arg args "--awskey") with
                          | Some a => a
                          | None => Getenv "AWS_ACCESS_KEY_ID"
                          end in
          let awsSecret := match string_ok (arg args "--awssecret") with
                           | Some a => a
                           | None => Getenv "AWS_SECRET_ACCESS_KEY"
                           end in
          if bool_decide (String.length awsKeyId < 1)%nat
             || bool_decide (String.length awsSecret < 1)%nat
          then
            ret (mkSettings c awsKeyId awsSecret logfile "" "",
                 Some (Sprintf "Must use -K and -S options or set AWS_ACCESS_KEY_ID and AWS_SECRET_ACCESS_KEY environment variables." []))
          else
            let statsdServer :=
              match string_ok (arg args "--statsd_server") with
              | Some a => a
              | None => ""
              end in
            let statsdPrefix :=
              match string_ok (arg args "--statsd_prefix") with
              | Some a => if HasSuffix a "." then a else a +:+ "."
              | None => "neddns."
              end in
            ret (mkSettings c awsKeyId awsSecret logfile statsdServer
                            statsdPrefix, None)
      end
  end.

End CommandLine.

(** The getter [main] builds from the configuration. *)
Definition main_getter (c : config) : s3getter :=
  mkS3getter (region c) (bucket c) (prefix c).

(** ** The zones of the repository's tests, as the parser yields them *)

Module TestZones.

Definition TypeNS : Z := 2.
Definition TypeSOA : Z := 6.
Definition TypeMX : Z := 15.

Definition apex_records (apex : string) : list RR :=
  [ RR_Other (mkHeader apex TypeSOA ClassINET 86400)
      ("nsa." +:+ apex +:+ " admin." +:+ apex
         +:+ " 2014121700 10800 1200 864000 7200");
    RR_Other (mkHeader apex TypeNS ClassINET 300) ("nsa." +:+ apex);
    RR_Other (mkHeader apex TypeNS ClassINET 300) ("nsb." +:+ apex);
    RR_Other (mkHeader apex TypeMX ClassINET 300) ("10 mail." +:+ apex) ].

Definition abc_A : RR :=
  RR_A (mkA (mkHeader "abc.com." TypeA ClassINET 300) [127; 0; 0; 1]).
Definition abc_www : RR :=
  RR_CNAME (mkCNAME (mkHeader "www.abc.com." TypeCNAME ClassINET 300)
                    "abc.com.").

(** [abcZone] *)
Definition abc_com : zone :=
  mkZone "abc.com" (apex_records "abc.com." ++ [abc_A; abc_www]).

Definition flat_apex : dns_CNAME :=
  mkCNAME (mkHeader "flat.com." TypeCNAME ClassINET 300) "def.com.".
Definition flat_www : RR :=
  RR_CNAME (mkCNAME (mkHeader "www.flat.com." TypeCNAME ClassINET 300)
                    "flat.com.").

(** [flatZone] *)
Definition flat_com : zone :=
  mkZone "flat.com" (apex_records "flat.com." ++ [RR_CNAME flat_apex; flat_www]).

Definition query (qname : string) (qtype : Z) : Msg :=
  mkMsg 4919 false OpcodeQuery false true RcodeSuccess
        [mkQuestion qname qtype ClassINET] [] [].

Definition conf : config :=
  mkConfig "bucket" "53" "us-east-1" "zones/" "8.8.8.8:53" false
           (Unix 0 0) (300 * 1000000000).

Definition client : ResponseWriter := mkWriter "192.0.2.7:40000".

(** An upstream that knows [def.com.] only. *)
Definition def_com_reply (m : Msg) : Msg :=
  set_Answer
    [RR_A (mkA (mkHeader "def.com." TypeA ClassINET 299) [127; 0; 0; 2])]
    (SetReply m).

Definition upstream (m : Msg) (addr : string)
  : option Msg * option error :=
  match Questions m with
  | [q] =>
      if bool_decide (QName q = "def.com.") then
        (Some (def_com_reply m), None)
      else (Some (mkMsg (Id m) true OpcodeQuery false true RcodeNameError
                        (Questions m) [] []), None)
  | _ => (None, Some (Str "dns: bad question"))
  end.

(** Upstreams that cannot be reached, that refuse, that have no data. *)
Definition down (m : Msg) (addr : string)
  : option Msg * option error :=
  (None, Some (Str "i/o timeout")).
Definition servfail (m : Msg) (addr : string)
  : option Msg * option error :=
  (Some (mkMsg (Id m) true OpcodeQuery false true 2 (Questions m) [] []),
   None).
Definition nodata (m : Msg) (addr : string)
  : option Msg * option error :=
  (Some (SetReply m), None).

Definition rr_text (r : RR) : string := Name (Header r).
Definition type_text (t : Z) : string :=
  if bool_decide (t = TypeA) then "A"
  else if bool_decide (t = TypeCNAME) then "CNAME" else "".
Definition class_text (c : Z) : string :=
  if bool_decide (c = ClassINET) then "IN" else "".

(** Zone files, abridged to their first line, and what the parser makes of
    them; the last one has a malformed address after its SOA record. *)
Definition abcZone : string := "abc.com 86400 IN SOA nsa.abc.com. admin.abc.com. ...".
Definition flatZone : string := "flat.com 86400 IN SOA nsa.flat.com. admin.flat.com. ...".
Definition badZone : string := "bad.com 86400 IN SOA nsa.bad.com. admin.bad.com. ... IN A 127.0.0.300".

Definition parser (f origin file : string) : list Token :=
  if bool_decide (f = abcZone) then TokenRR <$> rrs abc_com
  else if bool_decide (f = flatZone) then TokenRR <$> rrs flat_com
  else if bool_decide (f = badZone) then
    [TokenRR (RR_Other (mkHeader "bad.com." TypeSOA ClassINET 86400)
                       "nsa.bad.com. admin.bad.com. ...");
     TokenError (Str "dns: bad A A: 127.0.0.300 at line: 8:20")]
  else [].

(** The getter of the tests, with its zones in listing order. *)
Record testZone : Type := mkTestZone {
  tz_LastModified : Time;
  tz_Contents : string
}.

Record testGetter : Type := mkTestGetter {
  testZones : list (string * testZone)
}.

Fixpoint contents (zoneName : string) (l : list (string * testZone))
  : string :=
  match l with
  | [] => ""
  | (k, z) :: rest =>
      if bool_decide (k = zoneName) then tz_Contents z
      else contents zoneName rest
  end.

#[global] Instance testGetter_zoneGetter : zoneGetter testGetter := {|
  ListZones g :=
    Ok ((λ kz, mkZoneFile kz.1 (tz_LastModified kz.2)) <$> testZones g);
  GetZone g zoneName := Ok (mkReader (Ok (contents zoneName (testZones g))))
|}.

(** A date in November 2015, an hour later, and a configuration that last
    synchronized at that date. *)
Definition t0 : Time := Unix 1447545600 0.
Definition t1 : Time := Unix 1447549200 0.
Definition synced : config := set_lastUpdate t0 conf.

(** A bucket with the prefix marker, a zone untouched for a day, a zone
    modified exactly one minute before the last synchronization, and a
    zone modified after it. *)
Definition bucket_listing : testGetter :=
  mkTestGetter
    [ ("zones/", mkTestZone (t0 - 86400 * 1000000000) "");
      ("zones/abc.com", mkTestZone (t0 - 86400 * 1000000000) abcZone);
      ("zones/flat.com", mkTestZone (t0 - 60 * 1000000000) flatZone);
      ("zones/new.com", mkTestZone (t0 + 1) abcZone) ].



(** An S3 bucket that holds the prefix marker and nothing else. *)
Definition marker_only (q : ListObjectsInput) : result ListObjectsOutput :=
  Ok (mkListOutput (Some [mkObject (li_Prefix q) t0])).
Definition no_object (region bucket key : string) : result ReadCloser :=
  Err (Str "NoSuchKey: The specified key does not exist.").
Definition the_bucket : s3getter := mkS3getter "us-east-1" "bucket" "zones/".

(** An S3 bucket that lists the prefix marker and an object that is gone
    when it is fetched. *)
Definition vanishing (q : ListObjectsInput) : result ListObjectsOutput :=
  Ok (mkListOutput (Some [mkObject (li_Prefix q) t1;
                          mkObject (li_Prefix q +:+ "gone.com") t1])).
Definition mkTestS3 : zoneGetter s3getter :=
  s3getter_zoneGetter vanishing no_object.

(** A bucket in which nothing changed for a day. *)
Definition untouched : testGetter :=
  mkTestGetter
    [ ("zones/", mkTestZone (t0 - 86400 * 1000000000) "");
      ("zones/abc.com", mkTestZone (t0 - 86400 * 1000000000) abcZone) ].

(** What [bucket_listing] lists. *)
Definition listing : list zoneFile :=
  [ mkZoneFile "zones/" (t0 - 86400 * 1000000000);
    mkZoneFile "zones/abc.com" (t0 - 86400 * 1000000000);
    mkZoneFile "zones/flat.com" (t0 - 60 * 1000000000);
    mkZoneFile "zones/new.com" (t0 + 1) ].

End TestZones.

(** ** A command line *)

Module TestArgs.

(** [neddns -f zones/ --statsd_prefix dns mybucket], with the defaults of
    the usage. *)
Definition args : gmap string Value :=
  list_to_map
    [ ("<bucket>", VString "mybucket");
      ("--awskey", VNil);
      ("--awssecret", VNil);
      ("--region", VString "us-east-1");
      ("--update", VString "300");
      ("--port", VString "53");
      ("--prefix", VString "zones/");
      ("--resolver", VString "8.8.8.8:53");
      ("--log", VNil);
      ("--statsd_server", VNil);
      ("--statsd_prefix", VString "dns");
      ("--debug", VBool false);
      ("--help", VBool false);
      ("--version", VBool false) ].

(** The same with an empty [-K]. *)
Definition empty_key : gmap string Value :=
  <["--awskey" := VString ""]> args.

Definition duration (s : string) : Duration * option error :=
  if decide (s = "300s") then (300 * 1000000000, None)
  else (0, Some (Sprintf "time: invalid duration %s" [Str s])).

Definition env (k : string) : string :=
  if decide (k = "AWS_ACCESS_KEY_ID") then "AKIAEXAMPLE"
  else if decide (k = "AWS_SECRET_ACCESS_KEY") then "secret"
  else "".

(** A bucket whose listing holds the prefix marker and two zones. *)
Definition bucket_objects (q : ListObjectsInput) : result ListObjectsOutput :=
  Ok (mkListOutput
        (Some [ mkObject (li_Prefix q) TestZones.t0;
                mkObject (li_Prefix q +:+ "abc.com") TestZones.t0;
                mkObject (li_Prefix q +:+ "flat.com") TestZones.t1 ])).

Definition object (region bucket key : string) : result ReadCloser :=
  if decide (key = "zones/abc.com")
  then Ok (mkReader (Ok TestZones.abcZone))
  else if decide (key = "zones/flat.com")
       then Ok (mkReader (Ok TestZones.flatZone))
       else Err (Str "NoSuchKey: The specified key does not exist.").

End TestArgs.

(** ** Observations on a trace *)

(** The replies written. *)
Definition replies (t : list Event) : list Msg :=
  omap (λ e, match e with EvWriteMsg m => Some m | _ => None end) t.

(** The upstream queries sent. *)
Definition exchanges (t : list Event) : list Msg :=
  omap (λ e, match e with EvExchange m _ => Some m | _ => None end) t.

(** The keys fetched from the remote store. *)
Definition fetched (t : list Event) : list string :=
  omap (λ e, match e with EvGetZone k => Some k | _ => None end) t.

(** The lines logged. *)
Definition logged (t : list Event) : list Text :=
  omap (λ e, match e with EvLog l => Some l | _ => None end) t.

(** ** What the specification talks about, in its own terms *)

(** The upstream query of the flattener for a CNAME record. *)
Definition flat_question (cn : dns_CNAME) : Msg :=
  mkMsg 0 false OpcodeQuery false true RcodeSuccess
        [mkQuestion (Target cn) TypeA ClassINET] [] [].

(** The addresses of the A records among upstream answers. *)
Definition addresses (upstream : list RR) : list IP :=
  omap (λ a, match a with RR_A r => Some (A_A r) | _ => None end) upstream.

(** An A record for [owner]: TTL 300, class INET. *)
Definition synthesized (owner : string) (addr : IP) : RR :=
  RR_A (mkA (mkHeader owner TypeA ClassINET 300) addr).

(** The three ways the specification lets an upstream exchange fail. *)
Definition unreachable (res : option Msg * option error) : Prop :=
  is_Some res.2.
Definition refused (res : option Msg * option error) : Prop :=
  res.2 = None ∧ ∃ reply, res.1 = Some reply ∧ Rcode reply ≠ RcodeSuccess.
Definition answerless (res : option Msg * option error) : Prop :=
  res.2 = None ∧
  ∃ reply, res.1 = Some reply ∧ Rcode reply = RcodeSuccess
           ∧ Answer reply = [].

(** The record is at the question's name. *)
Definition at_name (q : Question) (r : RR) : bool :=
  bool_decide (QName q = Name (Header r)).

(** The record's type is the question's, or the question asks for ANY. *)
Definition type_matches (q : Question) (r : RR) : bool :=
  bool_decide (Qtype q = Rrtype (Header r)) || bool_decide (Qtype q = TypeANY).

(** The selection of the specification's query engine, step 3. *)
Definition selected (q : Question) (r : RR) : bool :=
  at_name q r && type_matches q r.

(** A CNAME record met by an A question. *)
Definition CNAME_for_A (q : Question) (r : RR) : bool :=
  bool_decide (Qtype q = TypeA) && bool_decide (Rrtype (Header r) = TypeCNAME).

(** The records the handler hands to the flattener. *)
Definition flattens (z : zone) (q : Question) (r : RR) : bool :=
  at_name q r && CNAME_for_A q r && bool_decide (QName q = Fqdn (name z)).

(** The records the handler may append as they are. *)
Definition answered (q : Question) (r : RR) : bool :=
  at_name q r && (CNAME_for_A q r || type_matches q r).

(** What flattening a CNAME record adds to the answer. *)
Definition flattened (Exchange : Msg → string → option Msg * option error)
    (c : config) (cn : dns_CNAME) : list RR :=
  match Exchange (flat_question cn) (resolver c) with
  | (Some reply, None) =>
      synthesized (Name (CNAME_Hdr cn)) <$> addresses (Answer reply)
  | _ => []
  end.

(** What one zone record adds to the answer. *)
Definition contribution (Exchange : Msg → string → option Msg * option error)
    (z : zone) (c : config) (q : Question) (r : RR)
  : list RR :=
  if flattens z q r then
    match r with
    | RR_CNAME cn => flattened Exchange c cn
    | _ => []
    end
  else if answered q r then [r] else [].

(** The CNAME records of a list that a question flattens. *)
Definition flattening (z : zone) (q : Question) (l : list RR)
  : list dns_CNAME :=
  omap (λ r, match r with
             | RR_CNAME cn => if flattens z q r then Some cn else None
             | _ => None
             end) l.

(** The record is a [*dns.CNAME] and the upstream either fails to
    answer or answers with success. *)
Definition flattenable (Exchange : Msg → string → option Msg * option error)
    (c : config) (r : RR) : Prop :=
  ∃ cn, r = RR_CNAME cn ∧
    (unreachable (Exchange (flat_question cn) (resolver c))
     ∨ ∃ reply, Exchange (flat_question cn) (resolver c) = (Some reply, None)
                ∧ Rcode reply = RcodeSuccess).

(** The reply of the handler to [req] with a given answer section. *)
Definition reply_to (req : Msg) (answer : list RR) : Msg :=
  set_Answer answer (set_Authoritative true (SetReply req)).

(** The handlers registered, in order. *)
Definition registrations (t : list Event) : list (string * Handler) :=
  omap (λ e, match e with EvHandleFunc p h => Some (p, h) | _ => None end) t.

(** The clock-skew tolerance of the staleness filter. *)
Definition skew : Duration := 60 * 1000000000.

(** A listed object is left out of a cycle when its key is the prefix
    marker or it was last modified before the watermark minus the skew. *)
Definition excluded (c : config) (k : zoneFile) : Prop :=
  Key k = prefix c ∨ LastModified k < lastUpdate c - skew.

Definition included (c : config) (resp : list zoneFile) : list zoneFile :=
  List.filter (λ k, negb (bool_decide (excluded c k))) resp.

(** The zone name of a listed object. *)
Definition zone_name (c : config) (k : zoneFile) : string :=
  TrimPrefix (Key k) (prefix c).

(** Fetching the content of one object: [GetZone], then [ReadAll]. *)
Definition fetch {G} `{zoneGetter G} (getter : G) (key : string)
  : result string :=
  match GetZone getter key with
  | Err e => Err e
  | Ok zoneData => ReadAll zoneData
  end.

(** The map [getZones] builds from the objects it fetches. *)
Definition collect {G} `{zoneGetter G} (c : config) (getter : G)
    (zones : gmap string string) (k : zoneFile) : gmap string string :=
  match fetch getter (Key k) with
  | Ok b => <[zone_name c k := b]> zones
  | Err _ => zones
  end.

(** The records among the parser's tokens, and whether no token is an
    error. *)
Definition records (tokens : list Token) : list RR :=
  omap (λ t, match t with TokenRR rr => Some rr | TokenError _ => None end)
       tokens.

Definition parses (tokens : list Token) : bool :=
  forallb (λ t, match t with TokenRR _ => true | TokenError _ => false end)
          tokens.

(** A zone of a batch, parsed in full. *)
Definition parsed_zone (ParseZone : string → string → string → list Token)
    (nf : string * string) : zone :=
  mkZone nf.1 (records (ParseZone nf.2 nf.1 nf.1)).

Definition zone_parses (ParseZone : string → string → string → list Token)
    (nf : string * string) : bool :=
  parses (ParseZone nf.2 nf.1 nf.1).

(** The zones of a batch that come before the first one that fails to
    parse. *)
Fixpoint good_prefix (ParseZone : string → string → string → list Token)
    (kvs : list (string * string)) : list (string * string) :=
  match kvs with
  | [] => []
  | nf :: rest =>
      if zone_parses ParseZone nf then nf :: good_prefix ParseZone rest
      else []
  end.


(** What a statsd counter received over a run. *)
Definition tally (stat : string) (t : list Event) : Z :=
  foldr (λ e acc, match e with
                  | EvIncr s n => if bool_decide (s = stat) then n + acc else acc
                  | _ => acc
                  end) 0 t.

(** The events of the scan of a zone: upstream queries and log lines. *)
Definition quiet (e : Event) : Prop :=
  match e with
  | EvExchange _ _ | EvLog _ => True
  | _ => False
  end.

(** The listeners started, by port. *)
Definition started (t : list Event) : list string :=
  omap (λ e, match e with EvStartServer p => Some p | _ => None end) t.

(** The last listed object that a cycle keeps under a zone name. *)
Definition last_named (c : config) (n : string) (l : list zoneFile)
  : option zoneFile :=
  last (List.filter (λ k, bool_decide (zone_name c k = n)) l).

(** What [s3getter.ListZones] makes of a listed object. *)
Definition listed (o : S3Object) : zoneFile :=
  mkZoneFile (Object_Key o) (Object_LastModified o).

(** The events of fetching and loading: anything but a counter or the
    start of the listeners. *)
Definition preparing (e : Event) : Prop :=
  match e with
  | EvIncr _ _ | EvStartServer _ => False
  | _ => True
  end.

(** ** Facts about the effect monad *)

Section MonadFacts.

Context {A B : Type}.

Lemma bind_ret (a : A) (k : A → M B) : bind (ret a) k = k a.
Proof. unfold bind, ret. by destruct (k a). Qed.

Lemma bind_Ret (t : list Event) (a : A) (k : A → M B) :
  bind (t, Ret a) k = (t ++ trace (k a), outcome (k a)).
Proof. unfold bind, trace, outcome. by destruct (k a). Qed.

Lemma bind_Panic (t : list Event) (why : string) (k : A → M B) :
  bind (t, Panic why) k = (t, Panic why).
Proof. reflexivity. Qed.

Lemma bind_Exit (t : list Event) (why : Text) (k : A → M B) :
  bind (t, Exit why) k = (t, Exit why).
Proof. reflexivity. Qed.

Lemma bind_emit (e : Event) (k : unit → M B) :
  bind (emit e) k = (e :: trace (k tt), outcome (k tt)).
Proof. unfold bind, emit, trace, outcome. by destruct (k tt). Qed.

Lemma trace_bind_prefix (m : M A) (k : A → M B) :
  trace m `prefix_of` trace (bind m k).
Proof.
  destruct m as [t [a| |]]; unfold bind, trace; simpl; try done.
  destruct (k a); simpl. by apply prefix_app_r.
Qed.

End MonadFacts.

Lemma M_eta {A} (m : M A) : m = (trace m, outcome m).
Proof. by destruct m. Qed.

Lemma debug_spec (c : config) (m : Text) :
  debug c m = (if debugOn c then [EvLog m] else [], Ret tt).
Proof. unfold debug. by destruct (debugOn c). Qed.

Lemma debug_outcome (c : config) (m : Text) : outcome (debug c m) = Ret tt.
Proof. rewrite debug_spec. done. Qed.

Lemma omap_debug {X} (f : Event → option X) (c : config) (m : Text) :
  (∀ l, f (EvLog l) = None) → omap f (trace (debug c m)) = [].
Proof. intros Hf. rewrite debug_spec. destruct (debugOn c); simpl; by rewrite ?Hf. Qed.

(** ** The CNAME flattener *)

Section FlattenFacts.

Variable Exchange : Msg → string → option Msg * option error.

Lemma exchange_spec (m : Msg) (addr : string) :
  exchange Exchange m addr = ([EvExchange m addr], Ret (Exchange m addr)).
Proof. reflexivity. Qed.

Lemma flatten_loop (h : RR_Header) (upstream acc : list RR) :
  fold_left (flattenAnswer h) upstream acc
  = acc ++ (synthesized (Name h) <$> addresses upstream).
Proof.
  revert acc. induction upstream as [|a rest IH]; intros acc; simpl.
  - by rewrite app_nil_r.
  - rewrite IH. destruct a; simpl; try done.
    by rewrite <- app_assoc.
Qed.

Lemma flattenCNAME_success (c : config) (in_ : dns_CNAME) (reply : Msg) :
  Exchange (flat_question in_) (resolver c) = (Some reply, None) →
  Rcode reply = RcodeSuccess →
  flattenCNAME Exchange c in_
  = ([EvExchange (flat_question in_) (resolver c)],
     Ret (Some (synthesized (Name (CNAME_Hdr in_))
                  <$> addresses (Answer reply)), None)).
Proof.
  intros HX Hrc. unfold flattenCNAME.
  change (set_RecursionDesired true (SetQuestion (Target in_) TypeA))
    with (flat_question in_).
  rewrite exchange_spec, bind_Ret, HX. simpl.
  rewrite Hrc. simpl. by rewrite flatten_loop.
Qed.

Lemma flattenCNAME_unreachable (c : config) (in_ : dns_CNAME)
    (reply : option Msg) (e : error) :
  Exchange (flat_question in_) (resolver c) = (reply, Some e) →
  flattenCNAME Exchange c in_
  = ([EvExchange (flat_question in_) (resolver c)], Ret (None, Some e)).
Proof.
  intros HX. unfold flattenCNAME.
  change (set_RecursionDesired true (SetQuestion (Target in_) TypeA))
    with (flat_question in_).
  by rewrite exchange_spec, bind_Ret, HX.
Qed.

Lemma flattenCNAME_refused (c : config) (in_ : dns_CNAME) (reply : Msg) :
  Exchange (flat_question in_) (resolver c) = (Some reply, None) →
  Rcode reply ≠ RcodeSuccess →
  flattenCNAME Exchange c in_
  = ([EvExchange (flat_question in_) (resolver c)], Panic nil_dereference).
Proof.
  intros HX Hrc. unfold flattenCNAME.
  change (set_RecursionDesired true (SetQuestion (Target in_) TypeA))
    with (flat_question in_).
  rewrite exchange_spec, bind_Ret, HX. simpl.
  rewrite (bool_decide_eq_false_2 _ Hrc). rewrite orb_true_r. done.
Qed.

Lemma flattenCNAME_nil (c : config) (in_ : dns_CNAME) :
  Exchange (flat_question in_) (resolver c) = (None, None) →
  flattenCNAME Exchange c in_
  = ([EvExchange (flat_question in_) (resolver c)], Panic nil_dereference).
Proof.
  intros HX. unfold flattenCNAME.
  change (set_RecursionDesired true (SetQuestion (Target in_) TypeA))
    with (flat_question in_).
  by rewrite exchange_spec, bind_Ret, HX.
Qed.

End FlattenFacts.

(** ** The zone handler *)

Section HandlerFacts.

Variable Exchange : Msg → string → option Msg * option error.
Variable RR_String : RR → string.
Variable TypeToString : Z → string.
Variable ClassToString : Z → string.

Lemma append_fold (p : string) (l : list RR) (st : scan_state) :
  fold_left (append_answer RR_String p) l st
  = (st.1 ++ l, st.2 ++ ((λ r, p +:+ RR_String r) <$> l)).
Proof.
  revert st. induction l as [|r l IH]; intros [a t]; simpl.
  - by rewrite !app_nil_r.
  - rewrite IH. simpl. by rewrite <- !app_assoc.
Qed.

Lemma scan_record_literal z c q st r :
  flattens z q r = false →
  scan_record Exchange RR_String z c q st r
  = ret (if answered q r then append_answer RR_String "" st r else st).
Proof.
  unfold flattens, answered, at_name, CNAME_for_A, type_matches, scan_record.
  intros Hf.
  destruct (bool_decide (QName q = Name (Header r))); simpl in *; [|done].
  destruct (bool_decide (Qtype q = TypeA)); simpl in *.
  - destruct (bool_decide (Rrtype (Header r) = TypeCNAME)); simpl in *.
    + by rewrite Hf.
    + by destruct (bool_decide (Qtype q = Rrtype (Header r))),
                  (bool_decide (Qtype q = TypeANY)).
  - by destruct (bool_decide (Qtype q = Rrtype (Header r))),
                (bool_decide (Qtype q = TypeANY)).
Qed.

Lemma scan_record_flat z c q st cn :
  flattens z q (RR_CNAME cn) = true →
  scan_record Exchange RR_String z c q st (RR_CNAME cn)
  = (let* (flat, err) := flattenCNAME Exchange c cn in
     match err, flat with
     | None, Some flat =>
         ret (fold_left (append_answer RR_String "(FLAT)") flat st)
     | _, _ =>
         let* msg := Error err in
         Printf "flattenCNAME error: %s" [msg] ;; ret st
     end).
Proof.
  unfold flattens, at_name, CNAME_for_A, scan_record. intros Hf.
  apply andb_prop in Hf as [Hf H3]. apply andb_prop in Hf as [H1 Hf].
  apply andb_prop in Hf as [H2a H2b].
  rewrite H1, H2a, H2b, H3. cbn [negb andb]. unfold assert_CNAME.
  by rewrite bind_ret.
Qed.

(** A flattened record, upstream failing to answer: logged, nothing
    appended, the scan goes on. *)
Lemma scan_record_unreachable z c q st cn reply e :
  flattens z q (RR_CNAME cn) = true →
  Exchange (flat_question cn) (resolver c) = (reply, Some e) →
  scan_record Exchange RR_String z c q st (RR_CNAME cn)
  = ([EvExchange (flat_question cn) (resolver c);
      EvLog (Sprintf "flattenCNAME error: %s" [e])], Ret st).
Proof.
  intros Hf HX. rewrite scan_record_flat by done.
  by rewrite (flattenCNAME_unreachable _ _ _ _ _ HX).
Qed.

(** A flattened record, upstream answering with success. *)
Lemma scan_record_success z c q st cn reply :
  flattens z q (RR_CNAME cn) = true →
  Exchange (flat_question cn) (resolver c) = (Some reply, None) →
  Rcode reply = RcodeSuccess →
  scan_record Exchange RR_String z c q st (RR_CNAME cn)
  = ([EvExchange (flat_question cn) (resolver c)],
     Ret (fold_left (append_answer RR_String "(FLAT)")
            (synthesized (Name (CNAME_Hdr cn)) <$> addresses (Answer reply))
            st)).
Proof.
  intros Hf HX Hrc. rewrite scan_record_flat by done.
  by rewrite (flattenCNAME_success _ _ _ _ HX Hrc).
Qed.

(** A flattened record, upstream answering with another response code. *)
Lemma scan_record_refused z c q st cn reply :
  flattens z q (RR_CNAME cn) = true →
  Exchange (flat_question cn) (resolver c) = (Some reply, None) →
  Rcode reply ≠ RcodeSuccess →
  scan_record Exchange RR_String z c q st (RR_CNAME cn)
  = ([EvExchange (flat_question cn) (resolver c)], Panic nil_dereference).
Proof.
  intros Hf HX Hrc. rewrite scan_record_flat by done.
  by rewrite (flattenCNAME_refused _ _ _ _ HX Hrc).
Qed.

(** A flattened record, upstream returning neither a reply nor an error. *)
Lemma scan_record_nil z c q st cn :
  flattens z q (RR_CNAME cn) = true →
  Exchange (flat_question cn) (resolver c) = (None, None) →
  scan_record Exchange RR_String z c q st (RR_CNAME cn)
  = ([EvExchange (flat_question cn) (resolver c)], Panic nil_dereference).
Proof.
  intros Hf HX. rewrite scan_record_flat by done.
  by rewrite (flattenCNAME_nil _ _ _ HX).
Qed.

(** A record with the type CNAME in its header that is no [*dns.CNAME]
    fails the type assertion. *)
Lemma scan_record_assert z c q st r :
  flattens z q r = true → (∀ cn, r ≠ RR_CNAME cn) →
  scan_record Exchange RR_String z c q st r = ([], Panic bad_type_assertion).
Proof.
  unfold flattens, at_name, CNAME_for_A, scan_record. intros Hf Hr.
  apply andb_prop in Hf as [Hf H3]. apply andb_prop in Hf as [H1 Hf].
  apply andb_prop in Hf as [H2a H2b].
  rewrite H1, H2a, H2b, H3. cbn [negb andb].
  destruct r as [a|cn|t|h d]; try done. by destruct (Hr cn).
Qed.

(** How one step of the scan can end. *)
Lemma scan_record_cases z c q st r :
  (flattens z q r = false
   ∧ scan_record Exchange RR_String z c q st r
     = ret (if answered q r then append_answer RR_String "" st r else st))
  ∨ (flattens z q r = true
     ∧ scan_record Exchange RR_String z c q st r
       = ([], Panic bad_type_assertion))
  ∨ (∃ cn, r = RR_CNAME cn ∧ flattens z q r = true ∧
       ((∃ e, scan_record Exchange RR_String z c q st r
              = ([EvExchange (flat_question cn) (resolver c);
                  EvLog (Sprintf "flattenCNAME error: %s" [e])], Ret st)
              ∧ unreachable (Exchange (flat_question cn) (resolver c)))
        ∨ (∃ reply, scan_record Exchange RR_String z c q st r
                    = ([EvExchange (flat_question cn) (resolver c)],
                       Ret (fold_left (append_answer RR_String "(FLAT)")
                              (synthesized (Name (CNAME_Hdr cn))
                                 <$> addresses (Answer reply)) st))
                    ∧ Exchange (flat_question cn) (resolver c)
                      = (Some reply, None)
                    ∧ Rcode reply = RcodeSuccess)
        ∨ scan_record Exchange RR_String z c q st r
          = ([EvExchange (flat_question cn) (resolver c)],
             Panic nil_dereference))).
Proof.
  destruct (flattens z q r) eqn:Hf.
  - right. destruct r as [a|cn|t|h d];
      try (left; split; [done|]; by apply scan_record_assert).
    right. exists cn. split; [done|]. split; [done|].
    destruct (Exchange (flat_question cn) (resolver c))
      as [[reply|] [e|]] eqn:HX.
    + left. exists e. split; [|by exists e].
      by apply scan_record_unreachable with (Some reply).
    + destruct (decide (Rcode reply = RcodeSuccess)) as [Hrc|Hrc].
      * right. left. exists reply. split; [|done].
        by apply scan_record_success.
      * right. right. by apply scan_record_refused with reply.
    + left. exists e. split; [|by exists e].
      by apply scan_record_unreachable with None.
    + right. right. by apply scan_record_nil.
  - left. split; [done|]. by apply scan_record_literal.
Qed.

End HandlerFacts.

Section HandlerRuns.

Variable Exchange : Msg → string → option Msg * option error.
Variable RR_String : RR → string.
Variable TypeToString : Z → string.
Variable ClassToString : Z → string.

#[local] Abbreviation scan := (scan_record Exchange RR_String).
#[local] Abbreviation handler :=
  (zoneHandler Exchange RR_String TypeToString ClassToString).

Lemma foldM_cons {S A} (f : S → A → M S) x l s :
  foldM f (x :: l) s = (let* s' := f s x in foldM f l s').
Proof. reflexivity. Qed.

Lemma flattening_flat z q cn l :
  flattens z q (RR_CNAME cn) = true →
  flattening z q (RR_CNAME cn :: l) = cn :: flattening z q l.
Proof. intros Hf. unfold flattening. simpl. by rewrite Hf. Qed.

Lemma flattening_skip z q r l :
  flattens z q r = false → flattening z q (r :: l) = flattening z q l.
Proof. intros Hf. unfold flattening. simpl. destruct r; by rewrite ?Hf. Qed.

Lemma contribution_flat z c q cn :
  flattens z q (RR_CNAME cn) = true →
  contribution Exchange z c q (RR_CNAME cn) = flattened Exchange c cn.
Proof. intros Hf. unfold contribution. by rewrite Hf. Qed.

Lemma contribution_literal z c q r :
  flattens z q r = false →
  contribution Exchange z c q r = if answered q r then [r] else [].
Proof. intros Hf. unfold contribution. by rewrite Hf. Qed.

Lemma flattened_unreachable c cn reply e :
  Exchange (flat_question cn) (resolver c) = (reply, Some e) →
  flattened Exchange c cn = [].
Proof. intros HX. unfold flattened. rewrite HX. by destruct reply. Qed.

Lemma flattened_success c cn reply :
  Exchange (flat_question cn) (resolver c) = (Some reply, None) →
  flattened Exchange c cn
  = synthesized (Name (CNAME_Hdr cn)) <$> addresses (Answer reply).
Proof. intros HX. unfold flattened. by rewrite HX. Qed.

(** The scan of a list of records whose flattened members can be
    flattened: it returns, with the contributions appended in order, one
    upstream query per flattened record and nothing written. *)
Lemma scan_run z c q l st :
  (∀ r, r ∈ l → flattens z q r = true → flattenable Exchange c r) →
  ∃ t txts,
    foldM (scan z c q) l st
    = (t, Ret (st.1 ++ flat_map (contribution Exchange z c q) l, txts))
    ∧ exchanges t = flat_question <$> flattening z q l
    ∧ replies t = [].
Proof.
  revert st. induction l as [|r l IH]; intros st Hl.
  - exists [], st.2. simpl. rewrite app_nil_r. by destruct st.
  - assert (Hl' : ∀ r', r' ∈ l → flattens z q r' = true
                        → flattenable Exchange c r')
      by (intros r' Hr'; apply Hl; by right).
    rewrite foldM_cons. cbn [flat_map].
    destruct (flattens z q r) eqn:Hf.
    + destruct (Hl r) as (cn & -> & Hup); [by left|done|].
      rewrite (flattening_flat _ _ _ _ Hf), (contribution_flat _ _ _ _ Hf).
      destruct Hup as [Hdown | (reply & HX & Hrc)].
      * destruct (Exchange (flat_question cn) (resolver c))
          as [reply [e|]] eqn:HX; [|by destruct Hdown].
        rewrite (scan_record_unreachable _ _ _ _ _ _ _ _ _ Hf HX).
        rewrite bind_Ret, (flattened_unreachable _ _ _ _ HX).
        destruct (IH st Hl') as (t & txts & -> & Hex & Hrep).
        eexists _, txts. split; [reflexivity|].
        split; [exact (f_equal (cons _) Hex) | exact Hrep].
      * rewrite (scan_record_success _ _ _ _ _ _ _ _ Hf HX Hrc).
        rewrite bind_Ret, append_fold, (flattened_success _ _ _ HX).
        match goal with |- context [foldM _ l ?s] => set (st' := s) end.
        destruct (IH st' Hl') as (t & txts & -> & Hex & Hrep).
        eexists _, txts. split.
        -- subst st'. cbn [fst trace outcome]. by rewrite <- app_assoc.
        -- split; [exact (f_equal (cons _) Hex) | exact Hrep].
    + rewrite (scan_record_literal _ _ _ _ _ _ _ Hf), bind_ret.
      rewrite (flattening_skip _ _ _ _ Hf), (contribution_literal _ _ _ _ Hf).
      destruct (answered q r).
      * destruct (IH (append_answer RR_String "" st r) Hl')
          as (t & txts & -> & Hex & Hrep).
        exists t, txts. cbn [append_answer fst]. by rewrite <- app_assoc.
      * destruct (IH st Hl') as (t & txts & -> & Hex & Hrep).
        by exists t, txts.
Qed.

(** The handler on a single INET question, given how the scan ends. *)
Lemma zoneHandler_run z c w req q t st :
  Questions req = [q] → Qclass q = ClassINET →
  foldM (scan z c q) (rrs z) ([], []) = (t, Ret st) →
  ∃ dbg,
    handler z c w req
    = (EvIncr "query.request" 1 :: t ++ dbg
         ++ [EvIncr "query.answer" 1; EvWriteMsg (reply_to req st.1)],
       Ret tt)
    ∧ replies dbg = [] ∧ exchanges dbg = [].
Proof.
  intros Hq Hc Hscan. unfold zoneHandler. rewrite Hq. simpl length.
  rewrite bool_decide_eq_true_2 by done. cbn [negb].
  change (Index [q] 0) with (ret q). rewrite bind_ret.
  rewrite (bool_decide_eq_true_2 _ Hc). cbn [negb].
  change (Answer (set_Answer [] (set_Authoritative true (SetReply req))))
    with (@nil RR).
  rewrite Hscan, bind_Ret.
  match goal with |- context [debug c ?m] => set (line := m) end.
  exists (trace (debug c line)).
  rewrite (M_eta (debug c line)), debug_outcome, bind_Ret.
  unfold Incr, WriteMsg. rewrite !bind_emit.
  split; [reflexivity|]. split; by apply omap_debug.
Qed.

(** A single INET question whose flattened records can be flattened is
    answered, with the contributions of the zone's records in stored
    order. *)
Lemma handler_answer z c w req q :
  Questions req = [q] → Qclass q = ClassINET →
  (∀ r, r ∈ rrs z → flattens z q r = true → flattenable Exchange c r) →
  outcome (handler z c w req) = Ret tt
  ∧ replies (trace (handler z c w req))
    = [reply_to req (flat_map (contribution Exchange z c q) (rrs z))]
  ∧ exchanges (trace (handler z c w req))
    = flat_question <$> flattening z q (rrs z).
Proof.
  intros Hq Hc Hfl.
  destruct (scan_run z c q (rrs z) ([], []) Hfl)
    as (t & txts & Hscan & Hex & Hrep).
  destruct (zoneHandler_run z c w req q _ _ Hq Hc Hscan)
    as (dbg & -> & Hd1 & Hd2).
  unfold trace, outcome, replies, exchanges in *. simpl.
  rewrite !omap_app, Hrep, Hex, Hd1, Hd2. simpl.
  by rewrite app_nil_r.
Qed.

End HandlerRuns.

Section HandlerTraces.

Variable Exchange : Msg → string → option Msg * option error.
Variable RR_String : RR → string.
Variable TypeToString : Z → string.
Variable ClassToString : Z → string.

#[local] Abbreviation scan := (scan_record Exchange RR_String).
#[local] Abbreviation handler :=
  (zoneHandler Exchange RR_String TypeToString ClassToString).

(** Without flattened records the contributions are a filter of the list. *)
Lemma literal_answers z c q l :
  (∀ r, r ∈ l → flattens z q r = false) →
  flat_map (contribution Exchange z c q) l = List.filter (answered q) l
  ∧ flattening z q l = [].
Proof.
  induction l as [|r l IH]; intros Hl; [done|].
  destruct IH as [IH1 IH2]; [intros r' Hr'; apply Hl; by right|].
  assert (Hf : flattens z q r = false) by (apply Hl; by left).
  rewrite (flattening_skip _ _ _ _ Hf). split; [|done].
  cbn [flat_map List.filter].
  rewrite (contribution_literal _ _ _ _ _ Hf), IH1.
  by destruct (answered q r).
Qed.

(** The flattener sends exactly one upstream query, however it ends. *)
Lemma flattenCNAME_trace c cn :
  trace (flattenCNAME Exchange c cn)
  = [EvExchange (flat_question cn) (resolver c)].
Proof.
  destruct (Exchange (flat_question cn) (resolver c))
    as [[reply|] [e|]] eqn:HX.
  - by rewrite (flattenCNAME_unreachable _ _ _ _ _ HX).
  - destruct (decide (Rcode reply = RcodeSuccess)) as [Hrc|Hrc].
    + by rewrite (flattenCNAME_success _ _ _ _ HX Hrc).
    + by rewrite (flattenCNAME_refused _ _ _ _ HX Hrc).
  - by rewrite (flattenCNAME_unreachable _ _ _ _ _ HX).
  - unfold flattenCNAME.
    change (set_RecursionDesired true (SetQuestion (Target cn) TypeA))
      with (flat_question cn).
    by rewrite exchange_spec, bind_Ret, HX.
Qed.

(** Upstream queries of one step of the scan: none, or the one for the
    CNAME record being flattened. *)
Lemma scan_record_exchanges z c q st r m :
  m ∈ exchanges (trace (scan z c q st r)) →
  ∃ cn, r = RR_CNAME cn ∧ flattens z q r = true ∧ m = flat_question cn.
Proof.
  destruct (scan_record_cases Exchange RR_String z c q st r)
    as [[_ ->]|[[_ ->]|(cn & -> & Hf & [(e & -> & _)|[(reply & -> & _)| ->]])]];
    cbn; intros Hm; try (by apply elem_of_nil in Hm);
    apply list_elem_of_singleton in Hm; by exists cn.
Qed.

(** One step of the scan writes no reply. *)
Lemma scan_record_silent z c q st r :
  replies (trace (scan z c q st r)) = [].
Proof.
  by destruct (scan_record_cases Exchange RR_String z c q st r)
    as [[_ ->]|[[_ ->]|(cn & -> & Hf & [(e & -> & _)|[(reply & -> & _)| ->]])]].
Qed.

(** A step of the scan that returns has flattened a record only if the
    record could be flattened. *)
Lemma scan_record_Ret z c q st r st' :
  outcome (scan z c q st r) = Ret st' →
  flattens z q r = true → flattenable Exchange c r.
Proof.
  intros Ho Hf.
  destruct (scan_record_cases Exchange RR_String z c q st r)
    as [[Hf' _]|[[_ Hs]|(cn & -> & _ & [(e & _ & Hd)|[(reply & _ & HX & Hrc)|Hs]])]].
  - congruence.
  - by rewrite Hs in Ho.
  - exists cn. split; [done|]. by left.
  - exists cn. split; [done|]. right. by exists reply.
  - by rewrite Hs in Ho.
Qed.

(** What a loop lets observe is observed in one of its turns. *)
Lemma foldM_observed {S A X} (obs : Event → option X) (f : S → A → M S)
    l s x :
  x ∈ omap obs (trace (foldM f l s)) →
  ∃ y s', y ∈ l ∧ x ∈ omap obs (trace (f s' y)).
Proof.
  revert s. induction l as [|y l IH]; intros s; [by intros ?%elem_of_nil|].
  rewrite foldM_cons, (M_eta (f s y)).
  destruct (outcome (f s y)) as [s'| |] eqn:Ho;
    [rewrite bind_Ret|rewrite bind_Panic|rewrite bind_Exit].
  - unfold trace at 1. cbn [fst]. rewrite omap_app.
    intros [Hm|Hm]%elem_of_app.
    + exists y, s. split; [by left|done].
    + destruct (IH _ Hm) as (y' & s'' & Hy & Hm'). exists y', s''.
      split; [by right|done].
  - intros Hm. exists y, s. split; [by left|done].
  - intros Hm. exists y, s. split; [by left|done].
Qed.

(** A loop that returns has returned from each of its turns. *)
Lemma foldM_Ret {S A} (f : S → A → M S) l s s' x :
  outcome (foldM f l s) = Ret s' → x ∈ l →
  ∃ s1 s2, outcome (f s1 x) = Ret s2.
Proof.
  revert s. induction l as [|y l IH]; intros s Ho Hx;
    [by apply elem_of_nil in Hx|].
  rewrite foldM_cons, (M_eta (f s y)) in Ho.
  destruct (outcome (f s y)) as [s1| |] eqn:Hy;
    [rewrite bind_Ret in Ho|by rewrite bind_Panic in Ho
    |by rewrite bind_Exit in Ho].
  apply elem_of_cons in Hx as [->|Hx].
  - by exists s, s1.
  - by apply (IH s1).
Qed.

Lemma scan_silent z c q l st : replies (trace (foldM (scan z c q) l st)) = [].
Proof.
  destruct (replies (trace (foldM (scan z c q) l st))) as [|m ms] eqn:Hr;
    [done|].
  assert (Hm : m ∈ replies (trace (foldM (scan z c q) l st)))
    by (rewrite Hr; by left).
  apply foldM_observed in Hm as (r & st' & _ & Hm).
  fold (replies (trace (scan z c q st' r))) in Hm.
  rewrite scan_record_silent in Hm. by apply elem_of_nil in Hm.
Qed.

(** The shape of a run of the handler. *)
Lemma zoneHandler_cases z c w req :
  (trace (handler z c w req)
   = [EvIncr "query.request" 1; EvIncr "query.error" 1;
      EvLog (Sprintf "Warning: len(req.Question) != 1" [])]
   ∧ length (Questions req) ≠ 1%nat)
  ∨ (∃ q, Questions req = [q] ∧ Qclass q ≠ ClassINET ∧
       trace (handler z c w req)
       = [EvIncr "query.request" 1; EvIncr "query.error" 1;
          EvLog (Sprintf "Warning: skipping unhandled class: %s"
                   [Str (ClassToString (Qclass q))])])
  ∨ (∃ q t, Questions req = [q] ∧ Qclass q = ClassINET ∧
       t = trace (foldM (scan z c q) (rrs z) ([], [])) ∧
       ((∃ st dbg, outcome (foldM (scan z c q) (rrs z) ([], [])) = Ret st
                   ∧ replies dbg = [] ∧ exchanges dbg = []
                   ∧ handler z c w req
                     = (EvIncr "query.request" 1 :: t ++ dbg
                          ++ [EvIncr "query.answer" 1;
                              EvWriteMsg (reply_to req st.1)], Ret tt))
        ∨ ((∀ st, outcome (foldM (scan z c q) (rrs z) ([], [])) ≠ Ret st)
           ∧ trace (handler z c w req) = EvIncr "query.request" 1 :: t))).
Proof.
  destruct (Questions req) as [|q [|q' rest]] eqn:Hq.
  - left. unfold zoneHandler. rewrite Hq. by cbn.
  - destruct (decide (Qclass q = ClassINET)) as [Hc|Hc].
    + right. right. exists q, (trace (foldM (scan z c q) (rrs z) ([], []))).
      split; [done|]. split; [done|]. split; [done|].
      destruct (foldM (scan z c q) (rrs z) ([], [])) as [t [st|why|why]] eqn:Hs.
      * left.
        destruct (zoneHandler_run Exchange RR_String TypeToString ClassToString
                    z c w req q t st Hq Hc Hs) as (dbg & Hrun & Hd1 & Hd2).
        by exists st, dbg.
      * right. split; [done|]. unfold zoneHandler. rewrite Hq. simpl length.
        rewrite bool_decide_eq_true_2 by done. cbn [negb].
        change (Index [q] 0) with (ret q). rewrite bind_ret.
        rewrite (bool_decide_eq_true_2 _ Hc). cbn [negb].
        change (Answer (set_Answer [] (set_Authoritative true (SetReply req))))
          with (@nil RR).
        rewrite Hs, bind_Panic. unfold Incr. by rewrite bind_emit.
      * right. split; [done|]. unfold zoneHandler. rewrite Hq. simpl length.
        rewrite bool_decide_eq_true_2 by done. cbn [negb].
        change (Index [q] 0) with (ret q). rewrite bind_ret.
        rewrite (bool_decide_eq_true_2 _ Hc). cbn [negb].
        change (Answer (set_Answer [] (set_Authoritative true (SetReply req))))
          with (@nil RR).
        rewrite Hs, bind_Exit. unfold Incr. by rewrite bind_emit.
    + right. left. exists q. split; [done|]. split; [done|].
      unfold zoneHandler. rewrite Hq. simpl length.
      rewrite bool_decide_eq_true_2 by done. cbn [negb].
      change (Index [q] 0) with (ret q). rewrite bind_ret.
      rewrite (bool_decide_eq_false_2 _ Hc). by cbn.
  - left. unfold zoneHandler. rewrite Hq. by cbn.
Qed.

(** Every upstream query of the handler is the flattening of a CNAME record
    of the zone that sits at the zone's apex. *)
Lemma zoneHandler_exchanges z c w req m :
  m ∈ exchanges (trace (handler z c w req)) →
  ∃ q cn, Questions req = [q] ∧ RR_CNAME cn ∈ rrs z
          ∧ flattens z q (RR_CNAME cn) = true ∧ m = flat_question cn.
Proof.
  destruct (zoneHandler_cases z c w req)
    as [[-> _]|[(q & _ & _ & ->)|(q & t & Hq & Hc & -> & Hrun)]];
    [by intros ?%elem_of_nil|by intros ?%elem_of_nil|].
  assert (Hscan : m ∈ exchanges (trace (foldM (scan z c q) (rrs z) ([], [])))
            → ∃ q cn, Questions req = [q] ∧ RR_CNAME cn ∈ rrs z
                      ∧ flattens z q (RR_CNAME cn) = true ∧ m = flat_question cn).
  { intros Hm. apply foldM_observed in Hm as (r & st & Hr & Hm).
    apply scan_record_exchanges in Hm as (cn & -> & Hf & ->).
    by exists q, cn. }
  destruct Hrun as [(st & dbg & _ & _ & Hd & ->)|[_ ->]].
  - unfold exchanges, trace at 1. cbn [fst omap list_omap].
    rewrite !omap_app. fold (exchanges dbg). rewrite Hd. cbn.
    rewrite app_nil_r. exact Hscan.
  - exact Hscan.
Qed.

(** Whatever the upstream does, a reply of the handler answers a single
    INET question with the contributions of the zone's records. *)
Lemma zoneHandler_reply z c w req m :
  m ∈ replies (trace (handler z c w req)) →
  ∃ q, Questions req = [q] ∧ Qclass q = ClassINET
       ∧ m = reply_to req (flat_map (contribution Exchange z c q) (rrs z)).
Proof.
  intros Hm.
  destruct (zoneHandler_cases z c w req)
    as [[Ht _]|[(q & _ & _ & Ht)|(q & t & Hq & Hc & -> & Hrun)]];
    [rewrite Ht in Hm; by apply elem_of_nil in Hm
    |rewrite Ht in Hm; by apply elem_of_nil in Hm|].
  exists q. split; [done|]. split; [done|].
  destruct Hrun as [(st & dbg & Ho & _ & _ & _)|[_ Ht]].
  - destruct (handler_answer Exchange RR_String TypeToString ClassToString
                z c w req q Hq Hc) as (_ & Hr & _).
    { intros r Hr Hf. destruct (foldM_Ret _ _ _ _ r Ho Hr) as (s1 & s2 & Hs).
      by apply (scan_record_Ret _ _ _ _ _ _ Hs). }
    rewrite Hr in Hm. by apply list_elem_of_singleton in Hm.
  - rewrite Ht in Hm. unfold replies in Hm. cbn [omap list_omap] in Hm.
    fold (replies (trace (foldM (scan z c q) (rrs z) ([], [])))) in Hm.
    rewrite scan_silent in Hm. by apply elem_of_nil in Hm.
Qed.


End HandlerTraces.

(** A single INET question that flattens no record: the answer is a
    filter of the zone's records and the upstream is not asked. *)
Lemma handler_literal Exchange RR_String TypeToString ClassToString
    z c w req q :
  Questions req = [q] → Qclass q = ClassINET →
  (∀ r, r ∈ rrs z → flattens z q r = false) →
  let run := zoneHandler Exchange RR_String TypeToString ClassToString
               z c w req in
  outcome run = Ret tt
  ∧ replies (trace run) = [reply_to req (List.filter (answered q) (rrs z))]
  ∧ exchanges (trace run) = [].
Proof.
  intros Hq Hc Hnone run.
  destruct (handler_answer Exchange RR_String TypeToString ClassToString
              z c w req q Hq Hc) as (Ho & Hr & Hx).
  { intros r Hr Hf. by rewrite (Hnone r Hr) in Hf. }
  destruct (literal_answers Exchange z c q (rrs z) Hnone) as [Ha Hfl].
  subst run. by rewrite Ho, Hr, Hx, Ha, Hfl.
Qed.

(** Flattened records that bring nothing leave the literal answers. *)
Lemma fruitless_flattening Exchange z c q l :
  (∀ r, r ∈ l → flattens z q r = true → contribution Exchange z c q r = []) →
  flat_map (contribution Exchange z c q) l
  = List.filter (λ r, answered q r && negb (flattens z q r)) l.
Proof.
  induction l as [|r l IH]; intros Hl; [done|].
  cbn [flat_map List.filter]. rewrite IH by (intros r' Hr'; apply Hl; by right).
  destruct (flattens z q r) eqn:Hf.
  - rewrite (Hl r) by (done || by left). by rewrite andb_false_r.
  - unfold contribution. rewrite Hf, andb_true_r. by destruct (answered q r).
Qed.

(** ** The version handler *)

Lemma versionHandler_probe w req q rest :
  Questions req = q :: rest → QName q = "." → Qtype q = TypeTXT →
  versionHandler w req
  = ([EvWriteMsg
        (set_Extra [RR_TXT (mkTXT (mkHeader "." TypeTXT ClassINET 0) ["NedDNS"])]
           (set_Answer
              [RR_TXT (mkTXT (mkHeader "." TypeTXT ClassINET 0)
                             ["v" +:+ version])]
              (set_Authoritative true (SetReply req))))],
     Ret tt).
Proof.
  intros Hq Hn Ht. destruct req, q. simpl in *. subst. reflexivity.
Qed.

Lemma versionHandler_other w req q rest :
  Questions req = q :: rest → ¬ (QName q = "." ∧ Qtype q = TypeTXT) →
  versionHandler w req = ([EvWriteMsg (SetReply req)], Ret tt).
Proof.
  intros Hq Hn. unfold versionHandler. rewrite Hq.
  change (Index (q :: rest) 0) with (ret q). rewrite bind_ret.
  destruct (bool_decide (QName q = ".")) eqn:H1.
  - rewrite bind_ret, bool_decide_eq_false_2, bind_ret; [done|].
    apply bool_decide_eq_true_1 in H1. tauto.
  - by rewrite !bind_ret.
Qed.

(** ** Fetching zones *)

Lemma registered_registrations (t : list Event) (mux : gmap string Handler) :
  registered t mux
  = fold_left (λ m ph, <[ph.1 := ph.2]> m) (registrations t) mux.
Proof.
  revert mux. induction t as [|e t IH]; intros mux; [done|].
  unfold registered, registrations in *. destruct e; cbn; by rewrite IH.
Qed.

Lemma registrations_app (t1 t2 : list Event) :
  registrations (t1 ++ t2) = registrations t1 ++ registrations t2.
Proof. apply omap_app. Qed.

Lemma registrations_debug (c : config) (m : Text) :
  registrations (trace (debug c m)) = [].
Proof. by apply omap_debug. Qed.

Section FetchFacts.

Context {G : Type} `{zoneGetter G}.

Lemma excluded_source (c : config) (k : zoneFile) :
  bool_decide (excluded c k)
  = bool_decide (Key k = prefix c)
    || Before (LastModified k) (Add (lastUpdate c) (-1 * Minute)).
Proof.
  unfold excluded, Before, Add, Minute, skew. by rewrite bool_decide_or.
Qed.

Lemma included_cons (c : config) (k : zoneFile) (resp : list zoneFile) :
  included c (k :: resp)
  = if bool_decide (excluded c k) then included c resp
    else k :: included c resp.
Proof. unfold included. cbn. by destruct (bool_decide (excluded c k)). Qed.

(** One turn of the loop of [getZones]. *)
Lemma getZones_range_cons (c : config) (getter : G) k rest zones :
  getZones_range c getter (k :: rest) zones
  = if bool_decide (excluded c k) then getZones_range c getter rest zones
    else
      emit (EvGetZone (Key k)) ;;
      match fetch getter (Key k) with
      | Err e => ret (zones, Some e)
      | Ok b => getZones_range c getter rest (<[zone_name c k := b]> zones)
      end.
Proof.
  rewrite excluded_source. cbn [getZones_range].
  destruct (bool_decide (Key k = prefix c)); [done|]. cbn [orb].
  destruct (Before _ _); [done|].
  unfold fetch. by destruct (GetZone getter (Key k)).
Qed.

(** The loop always returns, and only fetches. *)
Lemma getZones_range_returns (c : config) (getter : G) resp zones :
  ∃ keys zs err,
    getZones_range c getter resp zones = (EvGetZone <$> keys, Ret (zs, err)).
Proof.
  revert zones. induction resp as [|k rest IH]; intros zones.
  - by exists [], zones, None.
  - rewrite getZones_range_cons.
    destruct (bool_decide (excluded c k)); [apply IH|].
    rewrite bind_emit.
    destruct (fetch getter (Key k)) as [b|e].
    + destruct (IH (<[zone_name c k := b]> zones)) as (keys & zs & err & ->).
      by exists (Key k :: keys), zs, err.
    + by exists [Key k], zones, (Some e).
Qed.

(** Only objects that are not excluded are fetched, in listing order. *)
Lemma getZones_range_fetched (c : config) (getter : G) resp zones :
  fetched (trace (getZones_range c getter resp zones))
  `prefix_of` Key <$> included c resp.
Proof.
  revert zones. induction resp as [|k rest IH]; intros zones.
  - by exists [].
  - rewrite getZones_range_cons, included_cons.
    destruct (bool_decide (excluded c k)); [apply IH|].
    rewrite bind_emit.
    destruct (fetch getter (Key k)) as [b|e].
    + apply (prefix_cons (Key k)), IH.
    + by exists (Key <$> included c rest).
Qed.

(** When every fetch succeeds, each object that is not excluded is fetched
    and collected. *)
Lemma getZones_range_ok (c : config) (getter : G) resp zones :
  (∀ k, k ∈ included c resp → ∃ b, fetch getter (Key k) = Ok b) →
  getZones_range c getter resp zones
  = (EvGetZone <$> (Key <$> included c resp),
     Ret (fold_left (collect c getter) (included c resp) zones, None)).
Proof.
  revert zones. induction resp as [|k rest IH]; intros zones Hok; [done|].
  rewrite getZones_range_cons. rewrite included_cons in *.
  destruct (bool_decide (excluded c k)); [by apply IH|].
  rewrite bind_emit.
  destruct (Hok k) as [b Hb]; [by left|].
  cbn [fold_left fmap list_fmap]. unfold collect at 2. rewrite Hb.
  rewrite IH by (intros k' Hk'; apply Hok; by right). done.
Qed.

Lemma collect_dom (c : config) (getter : G) l (zones : gmap string string) :
  (∀ k, k ∈ l → ∃ b, fetch getter (Key k) = Ok b) →
  dom (fold_left (collect c getter) l zones)
  = dom zones ∪ list_to_set (zone_name c <$> l).
Proof.
  revert zones. induction l as [|k l IH]; intros zones Hok.
  - cbn. by rewrite (right_id_L ∅ (∪)).
  - cbn [fold_left]. rewrite IH by (intros k' Hk'; apply Hok; by right).
    destruct (Hok k) as [b Hb]; [by left|].
    unfold collect. rewrite Hb, dom_insert_L. cbn.
    by rewrite (comm_L (∪) {[zone_name c k]}),  <- (assoc_L (∪)).
Qed.

(** [getZones] from what its loop does. *)
Lemma getZones_listed (c : config) (getter : G) now resp t zs err :
  ListZones getter = Ok resp →
  getZones_range c getter resp ∅ = (t, Ret (zs, err)) →
  getZones c getter now
  = (EvListZones :: t,
     Ret (match err with
          | Some e => (c, zs, Some e)
          | None => (set_lastUpdate now c, zs, None)
          end)).
Proof.
  intros HL Hr. unfold getZones. rewrite HL, Hr, bind_Ret.
  rewrite bind_emit. destruct err; cbn; by rewrite app_nil_r.
Qed.

(** [getZones] always returns and registers nothing. *)
Lemma getZones_returns (c : config) (getter : G) now :
  ∃ t c' zs err,
    getZones c getter now = (t, Ret (c', zs, err))
    ∧ registrations t = []
    ∧ (err = None → c' = set_lastUpdate now c).
Proof.
  destruct (ListZones getter) as [resp|e] eqn:HL.
  - destruct (getZones_range_returns c getter resp ∅) as (keys & zs & err & Hr).
    rewrite (getZones_listed _ _ _ _ _ _ _ HL Hr).
    assert (registrations (EvListZones :: (EvGetZone <$> keys)) = []) as Hreg.
    { unfold registrations. cbn. clear Hr. by induction keys. }
    destruct err as [e|].
    + by exists (EvListZones :: (EvGetZone <$> keys)), c, zs, (Some e).
    + by exists (EvListZones :: (EvGetZone <$> keys)), (set_lastUpdate now c),
                zs, None.
  - unfold getZones. rewrite HL, bind_emit.
    by exists [EvListZones], c, ∅, (Some e).
Qed.

End FetchFacts.

(** ** Loading zones *)

Section LoadFacts.

Variable ParseZone : string → string → string → list Token.
Variable range : gmap string string → list (string * string).

#[local] Abbreviation load c := (λ (_ : unit) nf, loadZone ParseZone c nf).

Lemma parse_range_parses n tokens z :
  parses tokens = true →
  parse_range n tokens z = ret (mkZone (name z) (rrs z ++ records tokens)).
Proof.
  revert z. induction tokens as [|[rr|e] rest IH]; intros z Hp.
  - cbn. rewrite app_nil_r. by destruct z.
  - cbn [parse_range]. rewrite IH by done. cbn. by rewrite <- app_assoc.
  - done.
Qed.

Lemma parse_range_fails n tokens z :
  parses tokens = false → ∃ e, parse_range n tokens z = Fatal e.
Proof.
  revert z. induction tokens as [|[rr|e] rest IH]; intros z Hp.
  - done.
  - cbn [parse_range]. by apply IH.
  - by eexists.
Qed.

(** A zone that parses in full is registered, once. *)
Lemma loadZone_parses c nf :
  zone_parses ParseZone nf = true →
  outcome (loadZone ParseZone c nf) = Ret tt
  ∧ registrations (trace (loadZone ParseZone c nf))
    = [(nf.1, ZoneHandler (parsed_zone ParseZone nf))].
Proof.
  destruct nf as [n f]. unfold zone_parses, loadZone, parsed_zone. cbn [fst snd].
  intros Hp. rewrite (parse_range_parses _ _ _ Hp), bind_ret. cbn [name rrs app].
  rewrite !debug_spec, !bind_Ret, bind_emit.
  unfold registrations. by destruct (debugOn c).
Qed.

(** A zone that fails to parse ends the process and is not registered. *)
Lemma loadZone_fails c nf :
  zone_parses ParseZone nf = false →
  (∃ e, outcome (loadZone ParseZone c nf) = Exit e)
  ∧ registrations (trace (loadZone ParseZone c nf)) = [].
Proof.
  destruct nf as [n f]. unfold zone_parses, loadZone. cbn [fst snd].
  intros Hp. destruct (parse_range_fails n _ (mkZone n []) Hp) as [e ->].
  rewrite debug_spec, bind_Ret. unfold Fatal. rewrite bind_Exit.
  split; [by exists e|]. unfold registrations. by destruct (debugOn c).
Qed.

(** The loop of [loadZones]: the zones before the first failure are
    registered, in order; it returns when there is no failure and ends the
    process otherwise. *)
Lemma load_loop c kvs :
  registrations (trace (foldM (load c) kvs tt))
  = (λ nf, (nf.1, ZoneHandler (parsed_zone ParseZone nf)))
      <$> good_prefix ParseZone kvs
  ∧ if forallb (zone_parses ParseZone) kvs
    then outcome (foldM (load c) kvs tt) = Ret tt
    else ∃ e, outcome (foldM (load c) kvs tt) = Exit e.
Proof.
  induction kvs as [|nf kvs [IHr IHo]]; [done|].
  rewrite foldM_cons. cbn [good_prefix forallb].
  rewrite (M_eta (loadZone ParseZone c nf)).
  destruct (zone_parses ParseZone nf) eqn:Hp.
  - destruct (loadZone_parses c nf Hp) as [-> Hr]. rewrite bind_Ret.
    unfold trace at 1, outcome at 1. cbn [fst snd andb].
    rewrite registrations_app, Hr, IHr. split; [done|].
    unfold outcome at 2. cbn [snd]. exact IHo.
  - destruct (loadZone_fails c nf Hp) as [[e ->] Hr]. rewrite bind_Exit.
    split; [done|]. by exists e.
Qed.

Lemma loadZones_loop c zones :
  trace (loadZones ParseZone range c zones)
  = trace (foldM (load c) (range zones) tt)
  ∧ (outcome (foldM (load c) (range zones) tt) = Ret tt →
     outcome (loadZones ParseZone range c zones) = Ret None)
  ∧ (∀ e, outcome (foldM (load c) (range zones) tt) = Exit e →
          outcome (loadZones ParseZone range c zones) = Exit e).
Proof.
  unfold loadZones. rewrite (M_eta (foldM (load c) (range zones) tt)).
  destruct (outcome (foldM (load c) (range zones) tt)) as [[]| |];
    [rewrite bind_Ret|rewrite bind_Panic|rewrite bind_Exit];
    cbn; rewrite ?app_nil_r; repeat split; congruence.
Qed.











End LoadFacts.

(** ** The update loop *)

Section ReloadFacts.

Context {G : Type} `{zoneGetter G}.
Variable ParseZone : string → string → string → list Token.
Variable range : gmap string string → list (string * string).


(** A cycle whose fetch succeeds registers what [loadZones] registers, when
    there is something to load, and ends as [loadZones] does. *)
Lemma reload_fetched c (getter : G) why now c' zs :
  outcome (getZones c getter now) = Ret (c', zs, None) →
  registrations (trace (reload ParseZone range c getter why now))
  = (if bool_decide (0 < size zs)%nat
     then registrations (trace (loadZones ParseZone range c' zs))
     else [])
  ∧ outcome (reload ParseZone range c getter why now)
    = (if bool_decide (0 < size zs)%nat
       then match outcome (loadZones ParseZone range c' zs) with
            | Ret None => Ret c'
            | Ret (Some e) => Exit e
            | Panic why => Panic why
            | Exit e => Exit e
            end
       else Ret c').
Proof.
  destruct (getZones_returns c getter now) as (tg & c0 & z0 & err & Hg & Hreg & _).
  rewrite Hg. intros [= -> -> ->]. unfold reload, debug. rewrite Hg.
  unfold registrations in *.
  destruct (debugOn c); cbn -[loadZones size];
    destruct (debugOn c'), (bool_decide (0 < size zs)%nat);
    cbn -[loadZones size];
    try destruct (loadZones ParseZone range c' zs) as [tl [[e|]| |]];
    cbn; rewrite ?omap_app, ?Hreg; cbn; rewrite ?omap_app; cbn;
    by rewrite ?app_nil_r.
Qed.

End ReloadFacts.

(** ** Starting up *)

(** The listing of an S3 prefix without content is an error. *)
Lemma s3_ListZones_empty ListObjects GetObject (s : s3getter) contents :
  ListObjects (mkListInput (s3_region s) (s3_bucket s) "/" (s3_prefix s))
  = Ok (mkListOutput contents) →
  contents = None ∨ contents = Some [] →
  ∃ e, @ListZones _ (s3getter_zoneGetter ListObjects GetObject) s = Err e.
Proof.
  intros HL [-> | ->]; cbn; unfold s3_ListZones; rewrite HL; cbn; by eexists.
Qed.

(** A first listing that fails ends the process before anything is
    registered or started. *)
Lemma startup_listing_failure {G} `{zoneGetter G} ParseZone range c
    (getter : G) now e :
  ListZones getter = Err e →
  startup ParseZone range c getter now
  = ((if debugOn c then [EvLog (Str "Fetching zones...")] else [])
       ++ [EvListZones], Exit e).
Proof.
  intros HL. unfold startup, getZones, debug. rewrite HL.
  by destruct (debugOn c).
Qed.

(** Going through the records of a concrete zone. *)
Ltac each_record Hr tac :=
  vm_compute in Hr;
  repeat (apply elem_of_cons in Hr as [->|Hr]; [tac|]);
  by apply elem_of_nil in Hr.

(** * The properties of the specification *)

(** ** The query engine *)

(** C1, as the specification words it, fails: an A question for a name
    below the apex that holds a CNAME record is answered with that record,
    which the selection by type leaves out. *)
Lemma zoneHandler_selects_counterexample :
  let q := mkQuestion "www.abc.com." TypeA ClassINET in
  let run := zoneHandler TestZones.upstream TestZones.rr_text
               TestZones.type_text TestZones.class_text TestZones.abc_com
               TestZones.conf TestZones.client
               (TestZones.query "www.abc.com." TypeA) in
  QName q ≠ Fqdn (name TestZones.abc_com)
  ∧ outcome run = Ret tt
  ∧ (Answer <$> replies (trace run)) = [[TestZones.abc_www]]
  ∧ List.filter (selected q) (rrs TestZones.abc_com) = [].
Proof.
  cbv zeta. split; [by vm_compute|].
  split; [by vm_compute|]. split; by vm_compute.
Qed.

(** C1 (amended): a single INET question that flattens no record of the
    zone is answered, and the answer holds, in stored order, exactly the
    zone's records whose name is the question's and whose type is the
    question's, or the question asks for ANY, or the question asks for A
    and the record is a CNAME; for the zone abc.com with an A record
    127.0.0.1 at its apex, an A question for abc.com is answered with
    exactly that record. *)
Theorem zoneHandler_selects :
  (∀ Exchange RR_String TypeToString ClassToString z c w req q,
     Questions req = [q] → Qclass q = ClassINET →
     (∀ r, r ∈ rrs z → flattens z q r = false) →
     let run := zoneHandler Exchange RR_String TypeToString ClassToString
                  z c w req in
     outcome run = Ret tt
     ∧ replies (trace run) = [reply_to req (List.filter (answered q) (rrs z))]
     ∧ exchanges (trace run) = [])
  ∧ (∀ Exchange RR_String TypeToString ClassToString c w,
       let run := zoneHandler Exchange RR_String TypeToString ClassToString
                    TestZones.abc_com c w (TestZones.query "abc.com." TypeA) in
       outcome run = Ret tt
       ∧ (Answer <$> replies (trace run)) = [[TestZones.abc_A]]).
Proof.
  split; [exact handler_literal|].
  intros X S T C c w run.
  destruct (handler_literal X S T C TestZones.abc_com c w
              (TestZones.query "abc.com." TypeA)
              (mkQuestion "abc.com." TypeA ClassINET)) as (Ho & Hr & _);
    [done|done| |].
  { intros r Hr. each_record Hr ltac:(by vm_compute). }
  subst run. rewrite Ho, Hr. split; [done|]. by vm_compute.
Qed.

Lemma zoneHandler_selects_witness :
  let run := zoneHandler TestZones.upstream TestZones.rr_text
               TestZones.type_text TestZones.class_text TestZones.flat_com
               TestZones.conf TestZones.client
               (TestZones.query "www.flat.com." TypeANY) in
  outcome run = Ret tt
  ∧ replies (trace run)
    = [reply_to (TestZones.query "www.flat.com." TypeANY)
         (List.filter (answered (mkQuestion "www.flat.com." TypeANY ClassINET))
            (rrs TestZones.flat_com))]
  ∧ exchanges (trace run) = [].
Proof.
  apply (proj1 zoneHandler_selects TestZones.upstream TestZones.rr_text
           TestZones.type_text TestZones.class_text TestZones.flat_com
           TestZones.conf TestZones.client
           (TestZones.query "www.flat.com." TypeANY)
           (mkQuestion "www.flat.com." TypeANY ClassINET)).
  - reflexivity.
  - reflexivity.
  - intros r Hr. each_record Hr ltac:(by vm_compute).
Defined.



(** C8: an A question for a name that is not the zone's apex is answered
    with the CNAME records at that name as they are (and the A records
    there), without any upstream query; whatever the request, the handler
    flattens only CNAME records of the zone whose name is the apex. *)
Theorem nonapex_CNAME_literal :
  (∀ Exchange RR_String TypeToString ClassToString z c w req q,
     Questions req = [q] → Qclass q = ClassINET →
     Qtype q = TypeA → QName q ≠ Fqdn (name z) →
     let run := zoneHandler Exchange RR_String TypeToString ClassToString
                  z c w req in
     outcome run = Ret tt
     ∧ exchanges (trace run) = []
     ∧ replies (trace run)
       = [reply_to req
            (List.filter
               (λ r, at_name q r
                     && (bool_decide (Rrtype (Header r) = TypeCNAME)
                         || bool_decide (Rrtype (Header r) = TypeA)))
               (rrs z))])
  ∧ (∀ Exchange RR_String TypeToString ClassToString z c w req m,
       m ∈ exchanges (trace (zoneHandler Exchange RR_String TypeToString
                               ClassToString z c w req)) →
       ∃ cn, RR_CNAME cn ∈ rrs z
             ∧ Name (CNAME_Hdr cn) = Fqdn (name z)
             ∧ m = flat_question cn).
Proof.
  split.
  - intros X S T C z c w req q Hq Hc Ht Hn run.
    assert (Hnone : ∀ r, r ∈ rrs z → flattens z q r = false).
    { intros r _. unfold flattens.
      rewrite (bool_decide_eq_false_2 _ Hn). by rewrite andb_false_r. }
    destruct (handler_literal X S T C z c w req q Hq Hc Hnone)
      as (Ho & Hr & Hx).
    subst run. rewrite Ho, Hr, Hx. repeat split.
    do 2 f_equal. apply filter_ext. intros r.
    unfold answered, CNAME_for_A, type_matches. rewrite Ht.
    rewrite (bool_decide_eq_true_2 (TypeA = TypeA)) by done.
    rewrite (bool_decide_eq_false_2 (TypeA = TypeANY)) by done.
    rewrite orb_false_r. cbn [andb]. do 3 f_equal.
    apply bool_decide_ext. split; congruence.
  - intros X S T C z c w req m Hm.
    apply zoneHandler_exchanges in Hm as (q & cn & Hq & Hin & Hf & ->).
    exists cn. split; [done|]. split; [|done].
    unfold flattens, at_name in Hf. cbn [Header] in Hf.
    apply andb_prop in Hf as [Hf H3]. apply andb_prop in Hf as [H1 _].
    apply bool_decide_eq_true_1 in H1, H3. congruence.
Qed.

Lemma nonapex_CNAME_literal_witness :
  let q := mkQuestion "www.abc.com." TypeA ClassINET in
  let run := zoneHandler TestZones.upstream TestZones.rr_text
               TestZones.type_text TestZones.class_text TestZones.abc_com
               TestZones.conf TestZones.client
               (TestZones.query "www.abc.com." TypeA) in
  outcome run = Ret tt
  ∧ exchanges (trace run) = []
  ∧ replies (trace run)
    = [reply_to (TestZones.query "www.abc.com." TypeA)
         (List.filter
            (λ r, at_name q r
                  && (bool_decide (Rrtype (Header r) = TypeCNAME)
                      || bool_decide (Rrtype (Header r) = TypeA)))
            (rrs TestZones.abc_com))].
Proof.
  apply (proj1 nonapex_CNAME_literal TestZones.upstream TestZones.rr_text
           TestZones.type_text TestZones.class_text TestZones.abc_com
           TestZones.conf TestZones.client
           (TestZones.query "www.abc.com." TypeA)
           (mkQuestion "www.abc.com." TypeA ClassINET)).
  - reflexivity.
  - reflexivity.
  - reflexivity.
  - vm_compute. discriminate.
Defined.

(** ** The CNAME flattener *)

(** C7: when the upstream answers with success, the flattener returns, for
    every A record of the upstream answer and in its order, an A record
    that bears the name of the CNAME record (the question's name and the
    zone's apex when the handler flattens it), a TTL of 300, the class INET
    and the upstream record's address; nothing else of the upstream record
    is kept and the other upstream records add nothing. *)
Theorem flattenCNAME_synthesizes Exchange c in_ reply :
  Exchange (flat_question in_) (resolver c) = (Some reply, None) →
  Rcode reply = RcodeSuccess →
  let flat :=
    (λ addr, RR_A (mkA (mkHeader (Name (CNAME_Hdr in_)) TypeA ClassINET 300)
                       addr))
      <$> addresses (Answer reply) in
  flattenCNAME Exchange c in_
  = ([EvExchange (flat_question in_) (resolver c)], Ret (Some flat, None))
  ∧ (∀ z q, flattens z q (RR_CNAME in_) = true →
            Forall (λ r, Name (Header r) = QName q
                         ∧ Name (Header r) = Fqdn (name z)) flat).
Proof.
  intros HX Hrc flat. split.
  - by rewrite (flattenCNAME_success _ _ _ _ HX Hrc).
  - intros z q Hf. unfold flattens, at_name in Hf. cbn [Header] in Hf.
    apply andb_prop in Hf as [Hf H3]. apply andb_prop in Hf as [H1 _].
    apply bool_decide_eq_true_1 in H1, H3.
    apply Forall_forall. intros r (a & -> & _)%list_elem_of_fmap.
    cbn. split; congruence.
Qed.

Lemma flattenCNAME_synthesizes_witness :
  flattenCNAME TestZones.upstream TestZones.conf TestZones.flat_apex
  = ([EvExchange (flat_question TestZones.flat_apex) "8.8.8.8:53"],
     Ret (Some [RR_A (mkA (mkHeader "flat.com." TypeA ClassINET 300)
                          [127; 0; 0; 2])], None)).
Proof.
  refine (proj1 (flattenCNAME_synthesizes TestZones.upstream TestZones.conf
                   TestZones.flat_apex
                   (TestZones.def_com_reply (flat_question TestZones.flat_apex))
                   _ _)); reflexivity.
Defined.

(** C6, as the specification words it, fails: an upstream that answers
    with success and no record is no failure of the flattener, which returns
    an empty sequence and no error, and the handler logs nothing. *)
Lemma flatten_failure_counterexample :
  let res := TestZones.nodata (flat_question TestZones.flat_apex)
               (resolver TestZones.conf) in
  answerless res
  ∧ outcome (flattenCNAME TestZones.nodata TestZones.conf TestZones.flat_apex)
    = Ret (Some [], None)
  ∧ logged (trace (zoneHandler TestZones.nodata TestZones.rr_text
                     TestZones.type_text TestZones.class_text
                     TestZones.flat_com TestZones.conf TestZones.client
                     (TestZones.query "flat.com." TypeA)))
    = [].
Proof.
  cbv zeta. split; [|split; by vm_compute].
  split; [reflexivity|]. eexists. repeat split; reflexivity.
Qed.

(** C6 (amended): when the upstream resolver cannot be reached the
    flattener fails with the error of the exchange, the handler logs it,
    appends nothing for that record and goes on; when the upstream answers
    with success and no record the flattener returns an empty sequence
    without an error, nothing is logged and nothing is appended.  In both
    cases the query is answered, with no flattened record, and the handler
    returns. *)
Theorem flatten_failure_handled :
  (∀ Exchange RR_String z c q st cn,
     flattens z q (RR_CNAME cn) = true →
     (∀ reply e,
        Exchange (flat_question cn) (resolver c) = (reply, Some e) →
        outcome (flattenCNAME Exchange c cn) = Ret (None, Some e)
        ∧ scan_record Exchange RR_String z c q st (RR_CNAME cn)
          = ([EvExchange (flat_question cn) (resolver c);
              EvLog (Sprintf "flattenCNAME error: %s" [e])], Ret st))
     ∧ (answerless (Exchange (flat_question cn) (resolver c)) →
        outcome (flattenCNAME Exchange c cn) = Ret (Some [], None)
        ∧ scan_record Exchange RR_String z c q st (RR_CNAME cn)
          = ([EvExchange (flat_question cn) (resolver c)], Ret st)))
  ∧ (∀ Exchange RR_String TypeToString ClassToString z c w req q,
       Questions req = [q] → Qclass q = ClassINET →
       (∀ r, r ∈ rrs z → flattens z q r = true →
             ∃ cn, r = RR_CNAME cn
                   ∧ (unreachable (Exchange (flat_question cn) (resolver c))
                      ∨ answerless (Exchange (flat_question cn) (resolver c)))) →
       let run := zoneHandler Exchange RR_String TypeToString ClassToString
                    z c w req in
       outcome run = Ret tt
       ∧ replies (trace run)
         = [reply_to req
              (List.filter (λ r, answered q r && negb (flattens z q r))
                           (rrs z))]).
Proof.
  split.
  - intros X S z c q st cn Hf. split.
    + intros reply e HX. split.
      * by rewrite (flattenCNAME_unreachable _ _ _ _ _ HX).
      * by apply scan_record_unreachable with reply.
    + intros (Herr & reply & Hrep & Hrc & Hans).
      assert (HX : X (flat_question cn) (resolver c) = (Some reply, None)).
      { destruct (X (flat_question cn) (resolver c)); simpl in *. congruence. }
      split.
      * rewrite (flattenCNAME_success _ _ _ _ HX Hrc). by rewrite Hans.
      * rewrite (scan_record_success _ _ _ _ _ _ _ _ Hf HX Hrc), Hans.
        cbn. by destruct st.
  - intros X S T C z c w req q Hq Hc Hfail run.
    destruct (handler_answer X S T C z c w req q Hq Hc) as (Ho & Hr & _).
    { intros r Hr Hf. destruct (Hfail r Hr Hf) as (cn & -> & Hres).
      exists cn. split; [done|]. destruct Hres as [Hdown|Hnone]; [by left|].
      right. destruct Hnone as (Herr & reply & Hrep & Hrc & _). exists reply.
      destruct (X (flat_question cn) (resolver c)); simpl in *.
      split; congruence. }
    subst run. rewrite Ho, Hr. split; [done|]. do 2 f_equal.
    apply fruitless_flattening. intros r Hr' Hf.
    destruct (Hfail r Hr' Hf) as (cn & -> & Hres).
    rewrite (contribution_flat _ _ _ _ _ Hf).
    destruct Hres as [Hdown|(Herr & reply & Hrep & Hrc & Hans)].
    + destruct (X (flat_question cn) (resolver c)) as [reply [e|]] eqn:HX;
        [|by destruct Hdown].
      by apply flattened_unreachable with reply e.
    + assert (HX : X (flat_question cn) (resolver c) = (Some reply, None)).
      { destruct (X (flat_question cn) (resolver c)); simpl in *. congruence. }
      by rewrite (flattened_success _ _ _ _ HX), Hans.
Qed.

Lemma flatten_failure_handled_witness :
  let q := mkQuestion "flat.com." TypeA ClassINET in
  let run := zoneHandler TestZones.down TestZones.rr_text
               TestZones.type_text TestZones.class_text TestZones.flat_com
               TestZones.conf TestZones.client
               (TestZones.query "flat.com." TypeA) in
  outcome run = Ret tt
  ∧ replies (trace run)
    = [reply_to (TestZones.query "flat.com." TypeA)
         (List.filter (λ r, answered q r && negb (flattens TestZones.flat_com q r))
            (rrs TestZones.flat_com))].
Proof.
  apply (proj2 flatten_failure_handled TestZones.down TestZones.rr_text
           TestZones.type_text TestZones.class_text TestZones.flat_com
           TestZones.conf TestZones.client (TestZones.query "flat.com." TypeA)
           (mkQuestion "flat.com." TypeA ClassINET)).
  - reflexivity.
  - reflexivity.
  - intros r Hr.
    each_record Hr
      ltac:(first [ by vm_compute
                  | intros _; eexists; split; [reflexivity|];
                    left; by eexists ]).
Defined.

(** ** The version handler *)


(** ** The reload coordinator *)

(** C3: in a cycle, an object is fetched only if it is listed and is neither
    the prefix marker nor last modified strictly before the last
    synchronization minus one minute; when the fetches succeed, the objects
    fetched and collected for loading are exactly those, in listing order,
    and an object last modified exactly one minute before the last
    synchronization is among them. *)
Theorem reload_filter {G} `{zoneGetter G} (c : config) (getter : G)
    (now : Time) (resp : list zoneFile) :
  ListZones getter = Ok resp →
  let run := getZones c getter now in
  let kept k :=
    ¬ (Key k = prefix c ∨ LastModified k < lastUpdate c - 60 * 1000000000) in
  (∀ key, key ∈ fetched (trace run) → ∃ k, k ∈ resp ∧ Key k = key ∧ kept k)
  ∧ ((∀ k, k ∈ resp → kept k → ∃ b, fetch getter (Key k) = Ok b) →
     fetched (trace run) = Key <$> included c resp
     ∧ (∀ k, k ∈ resp → kept k → Key k ∈ fetched (trace run))
     ∧ (∀ k, k ∈ resp → Key k ≠ prefix c →
             LastModified k = lastUpdate c - 60 * 1000000000 →
             Key k ∈ fetched (trace run))
     ∧ ∃ zones, outcome run = Ret (set_lastUpdate now c, zones, None)
                ∧ dom zones = list_to_set (zone_name c <$> included c resp))
  ∧ (∀ k, k ∈ included c resp ↔ k ∈ resp ∧ kept k).
Proof.
  intros HL run kept.
  assert (Hin : ∀ k, k ∈ included c resp ↔ k ∈ resp ∧ kept k).
  { intros k. unfold included, kept.
    rewrite list_elem_of_In, filter_In, <- list_elem_of_In.
    by rewrite negb_true_iff, bool_decide_eq_false. }
  destruct (getZones_range_returns c getter resp ∅) as (keys & zs & err & Hr).
  pose proof (getZones_range_fetched c getter resp ∅) as Hpre.
  pose proof (getZones_listed c getter now resp _ _ _ HL Hr) as Hrun.
  fold run in Hrun. split; [|split; [|done]].
  - intros key Hkey. rewrite Hrun in Hkey. rewrite Hr in Hpre.
    destruct Hpre as [rest Hpre].
    assert (Hk : key ∈ Key <$> included c resp).
    { rewrite Hpre. apply elem_of_app. by left. }
    apply list_elem_of_fmap in Hk as (k & -> & Hk). exists k.
    apply Hin in Hk as [? ?]. done.
  - intros Hok.
    assert (Hok' : ∀ k, k ∈ included c resp → ∃ b, fetch getter (Key k) = Ok b).
    { intros k [? ?]%Hin. by apply Hok. }
    pose proof (getZones_listed c getter now resp _ _ _ HL
                  (getZones_range_ok c getter resp ∅ Hok')) as Hrun'.
    fold run in Hrun'.
    assert (Hf : fetched (trace run) = Key <$> included c resp).
    { rewrite Hrun'. unfold fetched. cbn. generalize (Key <$> included c resp).
      intros l. induction l as [|x l IH]; [done|]. cbn. by rewrite IH. }
    split; [done|]. split; [|split].
    + intros k Hk Hkept. rewrite Hf. apply list_elem_of_fmap. exists k.
      split; [done|]. by apply Hin.
    + intros k Hk Hm Hb. rewrite Hf. apply list_elem_of_fmap. exists k.
      split; [done|]. apply Hin. split; [done|].
      intros [Hmark|Hstale]; [done|lia].
    + rewrite Hrun'. eexists. split; [done|].
      rewrite (collect_dom c getter _ ∅ Hok'), dom_empty_L.
      by rewrite (left_id_L ∅ (∪)).
Qed.

Lemma reload_filter_witness :
  let c := TestZones.synced in
  let run := getZones c TestZones.bucket_listing TestZones.t1 in
  fetched (trace run) = ["zones/flat.com"; "zones/new.com"]
  ∧ ∃ zones, outcome run = Ret (set_lastUpdate TestZones.t1 c, zones, None)
             ∧ dom zones = {[ "flat.com"; "new.com" ]}.
Proof.
  assert (HL : ListZones TestZones.bucket_listing
               = Ok [ mkZoneFile "zones/" (TestZones.t0 - 86400 * 1000000000);
                      mkZoneFile "zones/abc.com"
                        (TestZones.t0 - 86400 * 1000000000);
                      mkZoneFile "zones/flat.com"
                        (TestZones.t0 - 60 * 1000000000);
                      mkZoneFile "zones/new.com" (TestZones.t0 + 1) ])
    by reflexivity.
  destruct (reload_filter TestZones.synced TestZones.bucket_listing
              TestZones.t1 _ HL) as (_ & Hw & _).
  destruct Hw as (Hf & _ & _ & zones & Ho & Hd).
  - intros k _ _. eexists. reflexivity.
  - split; [exact Hf|]. exists zones. split; [exact Ho|].
    rewrite Hd. by vm_compute.
Defined.






(** C9 fails on the code: when the bucket lists nothing but the prefix
    marker, the listing is not empty, the marker is skipped, no zone is
    fetched or loaded, and the process starts its listeners and serves no
    zone. *)
Theorem startup_without_zones (now : Time) :
  let run := @startup s3getter
               (s3getter_zoneGetter TestZones.marker_only TestZones.no_object)
               TestZones.parser map_to_list TestZones.conf
               TestZones.the_bucket now in
  lastUpdate TestZones.conf = Unix 0 0
  ∧ outcome run = Ret (set_lastUpdate now TestZones.conf)
  ∧ fetched (trace run) = []
  ∧ EvStartServer "53" ∈ trace run
  ∧ served_zones (registered (trace run) ∅) = ∅.
Proof.
  cbv zeta. split; [done|]. split; [done|]. split; [done|].
  split; [|by vm_compute]. cbn. by repeat constructor.
Qed.

(** * Further properties of the code *)

(** ** The zone handler *)

Section HandlerShape.

Variable Exchange : Msg → string → option Msg * option error.
Variable RR_String : RR → string.
Variable TypeToString : Z → string.
Variable ClassToString : Z → string.

#[local] Abbreviation scan := (scan_record Exchange RR_String).
#[local] Abbreviation handler :=
  (zoneHandler Exchange RR_String TypeToString ClassToString).

Lemma tally_app stat t1 t2 : tally stat (t1 ++ t2) = tally stat t1 + tally stat t2.
Proof.
  unfold tally. induction t1 as [|e t1 IH]; [done|]. cbn [app foldr].
  rewrite IH. destruct e; try done. destruct (bool_decide (stat0 = stat)); lia.
Qed.

Lemma tally_quiet stat t : Forall quiet t → tally stat t = 0.
Proof.
  unfold tally. induction 1 as [|e t He _ IH]; [done|]. cbn [foldr].
  rewrite IH. by destruct e.
Qed.

Lemma replies_quiet t : Forall quiet t → replies t = [].
Proof.
  induction 1 as [|e t He _ IH]; [done|]. unfold replies in *. cbn.
  rewrite IH. by destruct e.
Qed.

Lemma scan_record_quiet z c q st r : Forall quiet (trace (scan z c q st r)).
Proof.
  destruct (scan_record_cases Exchange RR_String z c q st r)
    as [[_ ->]|[[_ ->]|(cn & -> & Hf & [(e & -> & _)|[(reply & -> & _)| ->]])]];
    cbn; by repeat constructor.
Qed.

Lemma foldM_Forall {S A} (P : Event → Prop) (f : S → A → M S) l s :
  (∀ s x, Forall P (trace (f s x))) → Forall P (trace (foldM f l s)).
Proof.
  intros Hf. revert s. induction l as [|x l IH]; intros s; [by constructor|].
  rewrite foldM_cons, (M_eta (f s x)).
  destruct (outcome (f s x)) as [s'| |];
    [rewrite bind_Ret|rewrite bind_Panic|rewrite bind_Exit]; cbn;
    try apply Hf.
  apply Forall_app. split; [apply Hf|apply IH].
Qed.

Lemma scan_quiet z c q l st : Forall quiet (trace (foldM (scan z c q) l st)).
Proof. apply foldM_Forall. intros. apply scan_record_quiet. Qed.

(** The handler on a single INET question, by how the scan ends. *)
Lemma zoneHandler_shape z c w req q :
  Questions req = [q] → Qclass q = ClassINET →
  handler z c w req
  = match foldM (scan z c q) (rrs z) ([], []) with
    | (t, Ret st) =>
        (EvIncr "query.request" 1
           :: t
           ++ (if debugOn c
               then [EvLog
                       (Sprintf "Query [%s] %s -> %s "
                          [Str (RemoteAddr w);
                           Str (Join [QName q +:+ "[" +:+ TypeToString (Qtype q)
                                        +:+ "]"] ",");
                           Str (Join st.2 ",")])]
               else [])
           ++ [EvIncr "query.answer" 1; EvWriteMsg (reply_to req st.1)],
         Ret tt)
    | (t, Panic why) => (EvIncr "query.request" 1 :: t, Panic why)
    | (t, Exit why) => (EvIncr "query.request" 1 :: t, Exit why)
    end.
Proof.
  intros Hq Hc. unfold zoneHandler. rewrite Hq. simpl length.
  rewrite bool_decide_eq_true_2 by done. cbn [negb].
  change (Index [q] 0) with (ret q). rewrite bind_ret.
  rewrite (bool_decide_eq_true_2 _ Hc). cbn [negb].
  change (Answer (set_Answer [] (set_Authoritative true (SetReply req))))
    with (@nil RR).
  destruct (foldM (scan z c q) (rrs z) ([], [])) as [t [st|why|why]].
  - rewrite bind_Ret, debug_spec, bind_Ret. unfold Incr, WriteMsg.
    by rewrite !bind_emit.
  - rewrite bind_Panic. unfold Incr. by rewrite bind_emit.
  - rewrite bind_Exit. unfold Incr. by rewrite bind_emit.
Qed.

End HandlerShape.

Lemma handler_malformed Exchange RR_String TypeToString ClassToString
    z c w req :
  length (Questions req) ≠ 1%nat →
  zoneHandler Exchange RR_String TypeToString ClassToString z c w req
  = ([EvIncr "query.request" 1; EvIncr "query.error" 1;
      EvLog (Sprintf "Warning: len(req.Question) != 1" [])], Ret tt).
Proof.
  intros Hn. unfold zoneHandler. by rewrite (bool_decide_eq_false_2 _ Hn).
Qed.

Lemma handler_other_class Exchange RR_String TypeToString ClassToString
    z c w req q :
  Questions req = [q] → Qclass q ≠ ClassINET →
  zoneHandler Exchange RR_String TypeToString ClassToString z c w req
  = ([EvIncr "query.request" 1; EvIncr "query.error" 1;
      EvLog (Sprintf "Warning: skipping unhandled class: %s"
               [Str (ClassToString (Qclass q))])], Ret tt).
Proof.
  intros Hq Hc. unfold zoneHandler. rewrite Hq. simpl length.
  rewrite bool_decide_eq_true_2 by done. cbn [negb].
  change (Index [q] 0) with (ret q). rewrite bind_ret.
  by rewrite (bool_decide_eq_false_2 _ Hc).
Qed.

(** X1: a request that does not carry exactly one question, or whose
    question is not of class INET, is dropped: it is counted as a request
    and as an error, a warning is logged, the handler returns, and neither
    a reply nor an upstream query is sent. *)
Theorem zoneHandler_drops Exchange RR_String TypeToString ClassToString
    z c w req :
  length (Questions req) ≠ 1%nat
  ∨ (∃ q, Questions req = [q] ∧ Qclass q ≠ ClassINET) →
  let run := zoneHandler Exchange RR_String TypeToString ClassToString
               z c w req in
  outcome run = Ret tt
  ∧ replies (trace run) = []
  ∧ exchanges (trace run) = []
  ∧ tally "query.request" (trace run) = 1
  ∧ tally "query.error" (trace run) = 1
  ∧ tally "query.answer" (trace run) = 0
  ∧ length (logged (trace run)) = 1%nat.
Proof.
  intros [Hn|(q & Hq & Hc)] run; subst run.
  - by rewrite handler_malformed.
  - by rewrite (handler_other_class _ _ _ _ _ _ _ _ q).
Qed.

Lemma zoneHandler_drops_witness :
  let run := zoneHandler TestZones.upstream TestZones.rr_text
               TestZones.type_text TestZones.class_text TestZones.abc_com
               TestZones.conf TestZones.client
               (mkMsg 7 false OpcodeQuery false true RcodeSuccess
                  [mkQuestion "abc.com." TypeA ClassINET;
                   mkQuestion "www.abc.com." TypeA ClassINET] [] []) in
  outcome run = Ret tt
  ∧ replies (trace run) = []
  ∧ exchanges (trace run) = []
  ∧ tally "query.request" (trace run) = 1
  ∧ tally "query.error" (trace run) = 1
  ∧ tally "query.answer" (trace run) = 0
  ∧ length (logged (trace run)) = 1%nat.
Proof.
  apply (zoneHandler_drops TestZones.upstream TestZones.rr_text
           TestZones.type_text TestZones.class_text TestZones.abc_com
           TestZones.conf TestZones.client).
  left. cbn. lia.
Defined.

(** X2: whatever the request and the upstream, a run of the handler counts
    one request, writes at most one reply, counts an answer exactly when it
    writes a reply, never counts both an error and an answer, and counts
    one of the two exactly when it returns. *)
Theorem zoneHandler_accounting Exchange RR_String TypeToString
    ClassToString z c w req :
  let run := zoneHandler Exchange RR_String TypeToString ClassToString
               z c w req in
  tally "query.request" (trace run) = 1
  ∧ (length (replies (trace run)) ≤ 1)%nat
  ∧ tally "query.answer" (trace run)
    = Z.of_nat (length (replies (trace run)))
  ∧ 0 ≤ tally "query.error" (trace run)
  ∧ (outcome run = Ret tt
     ↔ tally "query.error" (trace run) + tally "query.answer" (trace run) = 1)
  ∧ (outcome run ≠ Ret tt
     ↔ tally "query.error" (trace run) + tally "query.answer" (trace run) = 0).
Proof.
  intros run. subst run.
  destruct (decide (length (Questions req) = 1%nat)) as [Hn|Hn].
  - destruct (Questions req) as [|q [|q' rest]] eqn:Hq; try done.
    destruct (decide (Qclass q = ClassINET)) as [Hc|Hc].
    + rewrite (zoneHandler_shape _ _ _ _ _ _ _ _ q Hq Hc).
      pose proof (scan_quiet Exchange RR_String z c q (rrs z) ([], [])) as Hqt.
      destruct (foldM (scan_record Exchange RR_String z c q) (rrs z) ([], []))
        as [t [st|why|why]]; cbn [trace outcome fst snd] in *.
      * change (EvIncr "query.request" 1 :: ?a) with ([EvIncr "query.request" 1] ++ a).
        unfold replies. rewrite !tally_app, !omap_app.
        fold (replies t). rewrite (replies_quiet _ Hqt), !(tally_quiet _ _ Hqt).
        destruct (debugOn c); cbn; repeat split; try done; lia.
      * change (EvIncr "query.request" 1 :: t) with ([EvIncr "query.request" 1] ++ t).
        unfold replies. rewrite !tally_app, !omap_app.
        fold (replies t). rewrite (replies_quiet _ Hqt), !(tally_quiet _ _ Hqt).
        cbn. repeat split; try done; lia.
      * change (EvIncr "query.request" 1 :: t) with ([EvIncr "query.request" 1] ++ t).
        unfold replies. rewrite !tally_app, !omap_app.
        fold (replies t). rewrite (replies_quiet _ Hqt), !(tally_quiet _ _ Hqt).
        cbn. repeat split; try done; lia.
    + rewrite (handler_other_class _ _ _ _ _ _ _ _ q Hq Hc). cbn.
      repeat split; try done; lia.
  - rewrite (handler_malformed _ _ _ _ _ _ _ _ Hn). cbn.
    repeat split; try done; lia.
Qed.

Lemma contributions_named Exchange z c q l :
  Forall (λ r, Name (Header r) = QName q)
         (flat_map (contribution Exchange z c q) l).
Proof.
  apply Forall_forall. intros r Hr%list_elem_of_In.
  apply in_flat_map in Hr as (r0 & _ & Hin).
  unfold contribution in Hin. destruct (flattens z q r0) eqn:Hf.
  - destruct r0 as [a|cn|t|h d]; try done.
    unfold flattens, at_name in Hf. cbn [Header] in Hf.
    apply andb_prop in Hf as [Hf _]. apply andb_prop in Hf as [H1 _].
    apply bool_decide_eq_true_1 in H1. unfold flattened in Hin.
    destruct (Exchange (flat_question cn) (resolver c)) as [[reply|] [e|]];
      try done.
    apply list_elem_of_In, list_elem_of_fmap in Hin as (a & -> & _). done.
  - destruct (answered q r0) eqn:Ha; [|done]. destruct Hin as [<-|[]].
    unfold answered, at_name in Ha. apply andb_prop in Ha as [H1 _].
    by apply bool_decide_eq_true_1 in H1.
Qed.

(** X3: whatever the upstream, every record in the answer section of a
    reply bears the name of the question, the synthesized records
    included. *)
Theorem answers_bear_question_name Exchange RR_String TypeToString
    ClassToString z c w req m :
  m ∈ replies (trace (zoneHandler Exchange RR_String TypeToString
                        ClassToString z c w req)) →
  ∃ q, Questions req = [q]
       ∧ Forall (λ r, Name (Header r) = QName q) (Answer m).
Proof.
  intros Hm. apply zoneHandler_reply in Hm as (q & Hq & _ & ->).
  exists q. split; [done|]. apply contributions_named.
Qed.

Lemma answers_bear_question_name_witness :
  ∃ q, Questions (TestZones.query "flat.com." TypeA) = [q]
       ∧ Forall (λ r, Name (Header r) = QName q)
           [RR_A (mkA (mkHeader "flat.com." TypeA ClassINET 300)
                      [127; 0; 0; 2])].
Proof.
  apply (answers_bear_question_name TestZones.upstream TestZones.rr_text
           TestZones.type_text TestZones.class_text TestZones.flat_com
           TestZones.conf TestZones.client (TestZones.query "flat.com." TypeA)
           (reply_to (TestZones.query "flat.com." TypeA)
              [RR_A (mkA (mkHeader "flat.com." TypeA ClassINET 300)
                         [127; 0; 0; 2])])).
  vm_compute. by left.
Defined.

Lemma filter_sublist {A} (f : A → bool) (l : list A) :
  List.filter f l `sublist_of` l.
Proof.
  induction l as [|x l IH]; [done|]. cbn.
  destruct (f x); by constructor.
Qed.

(** X4: unless the question asks for A at the zone's apex, the answer
    section of a reply is made of records of the zone, in the zone's order
    and each at most as often as the zone holds it; nothing is
    synthesized. *)
Theorem answers_from_zone Exchange RR_String TypeToString ClassToString
    z c w req q m :
  Questions req = [q] →
  ¬ (Qtype q = TypeA ∧ QName q = Fqdn (name z)) →
  m ∈ replies (trace (zoneHandler Exchange RR_String TypeToString
                        ClassToString z c w req)) →
  Answer m `sublist_of` rrs z
  ∧ exchanges (trace (zoneHandler Exchange RR_String TypeToString
                        ClassToString z c w req)) = [].
Proof.
  intros Hq Hapex Hm.
  assert (Hnone : ∀ r, r ∈ rrs z → flattens z q r = false).
  { intros r _. unfold flattens, CNAME_for_A.
    destruct (bool_decide (Qtype q = TypeA)) eqn:H1;
      [|by rewrite andb_false_r].
    destruct (bool_decide (QName q = Fqdn (name z))) eqn:H2;
      [|by rewrite andb_false_r].
    apply bool_decide_eq_true_1 in H1, H2. tauto. }
  pose proof Hm as Hm'.
  apply zoneHandler_reply in Hm' as (q' & Hq' & Hc & ->).
  rewrite Hq in Hq'. injection Hq' as <-.
  destruct (handler_literal Exchange RR_String TypeToString ClassToString
              z c w req q Hq Hc Hnone) as (_ & _ & Hx).
  split; [|exact Hx].
  rewrite (proj1 (literal_answers Exchange z c q (rrs z) Hnone)).
  apply filter_sublist.
Qed.

Lemma answers_from_zone_witness :
  [TestZones.abc_www] `sublist_of` rrs TestZones.abc_com
  ∧ exchanges (trace (zoneHandler TestZones.upstream TestZones.rr_text
                        TestZones.type_text TestZones.class_text
                        TestZones.abc_com TestZones.conf TestZones.client
                        (TestZones.query "www.abc.com." TypeA))) = [].
Proof.
  apply (answers_from_zone TestZones.upstream TestZones.rr_text
           TestZones.type_text TestZones.class_text TestZones.abc_com
           TestZones.conf TestZones.client
           (TestZones.query "www.abc.com." TypeA)
           (mkQuestion "www.abc.com." TypeA ClassINET)
           (reply_to (TestZones.query "www.abc.com." TypeA)
              [TestZones.abc_www])).
  - reflexivity.
  - vm_compute. intros [_ [=]].
  - vm_compute. by left.
Defined.

(** X5: a question for ANY is answered with every record at its name, in
    stored order, the zone's apex CNAME included as it is; the upstream is
    never asked. *)
Theorem ANY_question Exchange RR_String TypeToString ClassToString
    z c w req q :
  Questions req = [q] → Qclass q = ClassINET → Qtype q = TypeANY →
  let run := zoneHandler Exchange RR_String TypeToString ClassToString
               z c w req in
  outcome run = Ret tt
  ∧ exchanges (trace run) = []
  ∧ replies (trace run) = [reply_to req (List.filter (at_name q) (rrs z))].
Proof.
  intros Hq Hc Ht run.
  assert (Hnone : ∀ r, r ∈ rrs z → flattens z q r = false).
  { intros r _. unfold flattens, CNAME_for_A. rewrite Ht.
    rewrite (bool_decide_eq_false_2 (TypeANY = TypeA)) by done.
    by rewrite andb_false_r. }
  destruct (handler_literal Exchange RR_String TypeToString ClassToString
              z c w req q Hq Hc Hnone) as (Ho & Hr & Hx).
  subst run. rewrite Ho, Hr, Hx. repeat split.
  do 2 f_equal. apply filter_ext. intros r.
  unfold answered, type_matches. rewrite Ht.
  rewrite (bool_decide_eq_true_2 (TypeANY = TypeANY)) by done.
  by rewrite !orb_true_r, andb_true_r.
Qed.

Lemma ANY_question_witness :
  let req := TestZones.query "flat.com." TypeANY in
  let run := zoneHandler TestZones.upstream TestZones.rr_text
               TestZones.type_text TestZones.class_text TestZones.flat_com
               TestZones.conf TestZones.client req in
  outcome run = Ret tt
  ∧ exchanges (trace run) = []
  ∧ replies (trace run)
    = [reply_to req
         (List.filter (at_name (mkQuestion "flat.com." TypeANY ClassINET))
                      (rrs TestZones.flat_com))].
Proof.
  apply (ANY_question TestZones.upstream TestZones.rr_text
           TestZones.type_text TestZones.class_text TestZones.flat_com
           TestZones.conf TestZones.client (TestZones.query "flat.com." TypeANY)
           (mkQuestion "flat.com." TypeANY ClassINET)); reflexivity.
Defined.

(** ** The CNAME flattener *)

Lemma scan_literal_prefix Exchange RR_String z c q pre st :
  (∀ r, r ∈ pre → flattens z q r = false) →
  ∃ st', foldM (scan_record Exchange RR_String z c q) pre st = ret st'.
Proof.
  revert st. induction pre as [|r pre IH]; intros st Hpre; [by exists st|].
  rewrite foldM_cons.
  rewrite (scan_record_literal _ _ _ _ _ _ _ (Hpre r ltac:(by left))), bind_ret.
  apply IH. intros r' Hr'. apply Hpre. by right.
Qed.

Lemma bind_assoc {A B C} (m : M A) (k : A → M B) (h : B → M C) :
  bind (bind m k) h = bind m (λ a, bind (k a) h).
Proof.
  destruct m as [t [a| |]]; [|done|done]. unfold bind at 2 3.
  destruct (k a) as [t1 [b| |]]; [|done|done]. unfold bind.
  destruct (h b) as [t2 o]. by rewrite app_assoc.
Qed.

Lemma foldM_app {S A} (f : S → A → M S) l1 l2 s :
  foldM f (l1 ++ l2) s = (let* s' := foldM f l1 s in foldM f l2 s').
Proof.
  revert s. induction l1 as [|x l1 IH]; intros s.
  - cbn [app foldM]. by rewrite bind_ret.
  - cbn [app]. rewrite !foldM_cons, bind_assoc.
    destruct (f s x) as [t [s'| |]]; [|done|done].
    unfold bind at 1 2. by rewrite IH.
Qed.

(** X6: when the upstream answers the flattener's query without a
    transport error but with a response code other than success, or when
    the exchange returns neither a reply nor an error, [flattenCNAME]
    panics while it builds its error; the handler that flattens the first
    such record of the zone panics with it, writes no reply and counts
    neither an answer nor an error. *)
Theorem refused_upstream_panics Exchange RR_String TypeToString
    ClassToString z c w req q pre cn post :
  Questions req = [q] → Qclass q = ClassINET →
  rrs z = pre ++ RR_CNAME cn :: post →
  (∀ r, r ∈ pre → flattens z q r = false) →
  flattens z q (RR_CNAME cn) = true →
  (Exchange (flat_question cn) (resolver c) = (None, None)
   ∨ ∃ reply, Exchange (flat_question cn) (resolver c) = (Some reply, None)
              ∧ Rcode reply ≠ RcodeSuccess) →
  outcome (flattenCNAME Exchange c cn) = Panic nil_dereference
  ∧ zoneHandler Exchange RR_String TypeToString ClassToString z c w req
    = ([EvIncr "query.request" 1;
        EvExchange (flat_question cn) (resolver c)],
       Panic nil_dereference).
Proof.
  intros Hq Hc Hz Hpre Hf HX.
  assert (Hfl : flattenCNAME Exchange c cn
                = ([EvExchange (flat_question cn) (resolver c)],
                   Panic nil_dereference)).
  { destruct HX as [HX|(reply & HX & Hrc)].
    - by apply flattenCNAME_nil.
    - by apply flattenCNAME_refused with reply. }
  split; [by rewrite Hfl|].
  rewrite (zoneHandler_shape _ _ _ _ _ _ _ _ q Hq Hc), Hz, foldM_app.
  destruct (scan_literal_prefix Exchange RR_String z c q pre ([], []) Hpre)
    as [st' ->].
  rewrite bind_ret, foldM_cons.
  rewrite (scan_record_flat _ _ _ _ _ _ _ Hf), Hfl. done.
Qed.

Lemma refused_upstream_panics_witness :
  outcome (flattenCNAME TestZones.servfail TestZones.conf TestZones.flat_apex)
  = Panic nil_dereference
  ∧ zoneHandler TestZones.servfail TestZones.rr_text TestZones.type_text
      TestZones.class_text TestZones.flat_com TestZones.conf TestZones.client
      (TestZones.query "flat.com." TypeA)
    = ([EvIncr "query.request" 1;
        EvExchange (flat_question TestZones.flat_apex)
                   (resolver TestZones.conf)],
       Panic nil_dereference).
Proof.
  apply (refused_upstream_panics TestZones.servfail TestZones.rr_text
           TestZones.type_text TestZones.class_text TestZones.flat_com
           TestZones.conf TestZones.client (TestZones.query "flat.com." TypeA)
           (mkQuestion "flat.com." TypeA ClassINET)
           (TestZones.apex_records "flat.com.") TestZones.flat_apex
           [TestZones.flat_www]).
  - reflexivity.
  - reflexivity.
  - reflexivity.
  - intros r Hr. each_record Hr ltac:(by vm_compute).
  - reflexivity.
  - right. eexists. split; [reflexivity|]. by vm_compute.
Defined.

Lemma addresses_length (upstream : list RR) :
  (length (addresses upstream) ≤ length upstream)%nat.
Proof.
  unfold addresses. induction upstream as [|a l IH]; [done|].
  cbn. destruct a; cbn; lia.
Qed.

(** X7: whatever the upstream does, [flattenCNAME] sends exactly one query:
    an A question of class INET for the record's target, with recursion
    desired, to the configured resolver; it never asks again or elsewhere.
    When it returns, exactly one of its result and its error is nil, and
    the result has at most as many records as the upstream answer. *)
Theorem flattenCNAME_one_query Exchange c in_ :
  trace (flattenCNAME Exchange c in_)
  = [EvExchange
       (mkMsg 0 false OpcodeQuery false true RcodeSuccess
              [mkQuestion (Target in_) TypeA ClassINET] [] [])
       (resolver c)]
  ∧ (∀ flat err,
       outcome (flattenCNAME Exchange c in_) = Ret (flat, err) →
       (is_Some flat ↔ err = None)
       ∧ (∀ l, flat = Some l →
               ∃ reply, Exchange (flat_question in_) (resolver c)
                        = (Some reply, None)
                        ∧ (length l ≤ length (Answer reply))%nat)).
Proof.
  split; [apply flattenCNAME_trace|].
  intros flat err.
  destruct (Exchange (flat_question in_) (resolver c))
    as [[reply|] [e|]] eqn:HX.
  - rewrite (flattenCNAME_unreachable _ _ _ _ _ HX). intros [= <- <-].
    split; [split; [by intros [? [=]]|done]|done].
  - destruct (decide (Rcode reply = RcodeSuccess)) as [Hrc|Hrc].
    + rewrite (flattenCNAME_success _ _ _ _ HX Hrc). intros [= <- <-].
      split; [split; [done|by eexists]|].
      intros l [= <-]. exists reply. split; [done|].
      rewrite length_fmap. apply addresses_length.
    + by rewrite (flattenCNAME_refused _ _ _ _ HX Hrc).
  - rewrite (flattenCNAME_unreachable _ _ _ _ _ HX). intros [= <- <-].
    split; [split; [by intros [? [=]]|done]|done].
  - by rewrite (flattenCNAME_nil _ _ _ HX).
Qed.

Lemma flattenCNAME_one_query_witness :
  (is_Some (Some [synthesized "flat.com." [127; 0; 0; 2]]) ↔ @None error = None)
  ∧ (∀ l, Some [synthesized "flat.com." [127; 0; 0; 2]] = Some l →
          ∃ reply, TestZones.upstream (flat_question TestZones.flat_apex)
                     (resolver TestZones.conf) = (Some reply, None)
                   ∧ (length l ≤ length (Answer reply))%nat).
Proof.
  apply (proj2 (flattenCNAME_one_query TestZones.upstream TestZones.conf
                  TestZones.flat_apex)).
  reflexivity.
Defined.

(** ** The version handler *)

(** X8: on a message with at least one question, the version handler
    looks at the first question only, and at its name and type only: for
    the name "." and the type TXT it replies, as an authority, with one TXT
    answer holding "v" and the version and one additional TXT record
    holding "NedDNS", both named ".", of class INET and TTL 0; for any other
    first question it replies with no record at all. *)
Theorem version_probe w req q rest :
  Questions req = q :: rest →
  (QName q = "." ∧ Qtype q = TypeTXT →
   ∃ m, versionHandler w req = ([EvWriteMsg m], Ret tt)
        ∧ Answer m = [RR_TXT (mkTXT (mkHeader "." TypeTXT ClassINET 0)
                                    ["v0.1.2015111500"])]
        ∧ Extra m = [RR_TXT (mkTXT (mkHeader "." TypeTXT ClassINET 0)
                                   ["NedDNS"])]
        ∧ Authoritative m = true ∧ Questions m = [q] ∧ Id m = Id req)
  ∧ (¬ (QName q = "." ∧ Qtype q = TypeTXT) →
     ∃ m, versionHandler w req = ([EvWriteMsg m], Ret tt)
          ∧ Answer m = [] ∧ Extra m = []
          ∧ Authoritative m = false ∧ Questions m = [q] ∧ Id m = Id req).
Proof.
  intros Hq. split.
  - intros [Hn Ht]. rewrite (versionHandler_probe w req q rest Hq Hn Ht).
    eexists. split; [done|]. cbn. by rewrite Hq.
  - intros Hno. rewrite (versionHandler_other w req q rest Hq Hno).
    eexists. split; [done|]. cbn. by rewrite Hq.
Qed.

Lemma version_probe_witness :
  ∃ m, versionHandler TestZones.client (TestZones.query "." TypeTXT)
       = ([EvWriteMsg m], Ret tt)
       ∧ Answer m = [RR_TXT (mkTXT (mkHeader "." TypeTXT ClassINET 0)
                                   ["v0.1.2015111500"])]
       ∧ Extra m = [RR_TXT (mkTXT (mkHeader "." TypeTXT ClassINET 0)
                                  ["NedDNS"])]
       ∧ Authoritative m = true
       ∧ Questions m = [mkQuestion "." TypeTXT ClassINET]
       ∧ Id m = Id (TestZones.query "." TypeTXT).
Proof.
  apply (proj1 (version_probe TestZones.client (TestZones.query "." TypeTXT)
                  (mkQuestion "." TypeTXT ClassINET) [] eq_refl)).
  by split.
Defined.

(** ** Fetching zones *)

Section FetchMore.

Context {G : Type} `{zoneGetter G}.

Lemma fetched_keys (keys : list string) :
  fetched (EvGetZone <$> keys) = keys.
Proof.
  unfold fetched. induction keys as [|k keys IH]; [done|]. cbn.
  by rewrite IH.
Qed.

Lemma included_app (c : config) (l1 l2 : list zoneFile) :
  included c (l1 ++ l2) = included c l1 ++ included c l2.
Proof. unfold included. apply List.filter_app. Qed.

(** The loop of [getZones] over a listing in two parts. *)
Lemma getZones_range_app (c : config) (getter : G) l1 l2 zones :
  (∀ k, k ∈ included c l1 → ∃ b, fetch getter (Key k) = Ok b) →
  getZones_range c getter (l1 ++ l2) zones
  = (let* _ := (EvGetZone <$> (Key <$> included c l1), Ret tt) in
     getZones_range c getter l2 (fold_left (collect c getter) (included c l1) zones)).
Proof.
  revert zones. induction l1 as [|k l1 IH]; intros zones Hok.
  - cbn. by destruct (getZones_range c getter l2 zones).
  - cbn [app]. rewrite getZones_range_cons. rewrite included_cons in *.
    destruct (bool_decide (excluded c k)); [by apply IH|].
    destruct (Hok k) as [b Hb]; [by left|].
    rewrite bind_emit. rewrite Hb.
    rewrite IH by (intros k' Hk'; apply Hok; by right).
    assert (collect c getter zones k = <[zone_name c k := b]> zones) as Hc
      by (unfold collect; by rewrite Hb).
    cbn [fold_left fmap list_fmap]. rewrite Hc. by rewrite !bind_Ret.
Qed.

End FetchMore.

(** X9: [getZones] always returns, whatever the getter does; it changes
    nothing of the configuration but [lastUpdate], which it sets to the
    current time exactly when it returns no error, and it registers no
    handler, writes no reply and starts no listener. *)
Theorem getZones_watermark {G} `{zoneGetter G} (c : config) (getter : G)
    (now : Time) :
  ∃ t c' zones err,
    getZones c getter now = (t, Ret (c', zones, err))
    ∧ c' = match err with
           | None => set_lastUpdate now c
           | Some _ => c
           end
    ∧ registrations t = [] ∧ replies t = [] ∧ started t = []
    ∧ (∀ e, ListZones getter = Err e → err = Some e ∧ zones = ∅ ∧ fetched t = []).
Proof.
  destruct (ListZones getter) as [resp|e] eqn:HL.
  - destruct (getZones_range_returns c getter resp ∅) as (keys & zs & err & Hr).
    rewrite (getZones_listed _ _ _ _ _ _ _ HL Hr).
    assert (Hq : ∀ X (f : Event → option X),
               f EvListZones = None → (∀ k, f (EvGetZone k) = None) →
               omap f (EvListZones :: (EvGetZone <$> keys)) = []).
    { intros X f H1 H2. cbn. rewrite H1. clear Hr.
      induction keys as [|k keys IH]; [done|]. cbn. by rewrite H2. }
    exists (EvListZones :: (EvGetZone <$> keys)).
    destruct err as [e|]; eexists _, zs, _; (split; [reflexivity|]);
      (split; [done|]); repeat split; try (by apply Hq); done.
  - unfold getZones. rewrite HL, bind_emit.
    exists [EvListZones], c, ∅, (Some e).
    repeat split; try done; congruence.
Qed.

(** X10: a fetch that fails stops the cycle at once: [getZones] returns
    that error with the zones collected so far, leaves [lastUpdate] as it
    was, and fetches none of the objects listed after the failing one. *)
Theorem getZones_fetch_failure {G} `{zoneGetter G} (c : config) (getter : G)
    (now : Time) pre k post e :
  ListZones getter = Ok (pre ++ k :: post) →
  ¬ excluded c k →
  (∀ k', k' ∈ included c pre → ∃ b, fetch getter (Key k') = Ok b) →
  fetch getter (Key k) = Err e →
  let run := getZones c getter now in
  outcome run
  = Ret (c, fold_left (collect c getter) (included c pre) ∅, Some e)
  ∧ fetched (trace run) = (Key <$> included c pre) ++ [Key k].
Proof.
  intros HL Hk Hpre He run.
  assert (Hr : getZones_range c getter (pre ++ k :: post) ∅
               = ((EvGetZone <$> (Key <$> included c pre)) ++ [EvGetZone (Key k)],
                  Ret (fold_left (collect c getter) (included c pre) ∅, Some e))).
  { rewrite (getZones_range_app c getter pre (k :: post) ∅ Hpre), bind_Ret.
    rewrite getZones_range_cons, (bool_decide_eq_false_2 _ Hk), bind_emit.
    by rewrite He. }
  subst run. rewrite (getZones_listed _ _ _ _ _ _ _ HL Hr).
  split; [done|]. cbn [trace fst]. unfold fetched.
  cbn [omap list_omap]. rewrite omap_app, <- list_fmap_compose.
  fold (fetched (EvGetZone <$> (Key <$> included c pre))).
  rewrite list_fmap_compose, fetched_keys. done.
Qed.

Lemma getZones_fetch_failure_witness :
  let g := TestZones.mkTestS3 in
  let c := TestZones.synced in
  let run := getZones (H := g) c TestZones.the_bucket TestZones.t1 in
  outcome run
  = Ret (c, fold_left (collect (H := g) c TestZones.the_bucket)
              (included c [mkZoneFile "zones/" TestZones.t1]) ∅,
         Some (Str "NoSuchKey: The specified key does not exist."))
  ∧ fetched (trace run)
    = (Key <$> included c [mkZoneFile "zones/" TestZones.t1])
        ++ ["zones/gone.com"].
Proof.
  apply (getZones_fetch_failure (H := TestZones.mkTestS3) TestZones.synced
           TestZones.the_bucket TestZones.t1
           [mkZoneFile "zones/" TestZones.t1]
           (mkZoneFile "zones/gone.com" TestZones.t1) []).
  - reflexivity.
  - vm_compute. intros [[=]|[=]].
  - intros k' Hk'. vm_compute in Hk'. by apply elem_of_nil in Hk'.
  - reflexivity.
Defined.

(** X11: a cycle that finds nothing new, every listed object being the
    prefix marker or last modified more than a minute before the last
    synchronization, fetches nothing, registers nothing, and returns with
    [lastUpdate] advanced to the current time: the store is as it was. *)
Theorem idle_cycle {G} `{zoneGetter G}
    (ParseZone : string → string → string → list Token)
    (range : gmap string string → list (string * string))
    (c : config) (getter : G) (why : Trigger) (now : Time) resp :
  ListZones getter = Ok resp →
  (∀ k, k ∈ resp → excluded c k) →
  let run := reload ParseZone range c getter why now in
  outcome run = Ret (set_lastUpdate now c)
  ∧ fetched (trace run) = []
  ∧ ∀ mux, registered (trace run) mux = mux.
Proof.
  intros HL Hall run.
  assert (Hinc : included c resp = []).
  { unfold included. clear HL. induction resp as [|k l IH]; [done|]. cbn.
    rewrite (bool_decide_eq_true_2 (excluded c k)) by (apply Hall; by left).
    apply IH. intros k' Hk'. apply Hall. by right. }
  assert (Hr : getZones_range c getter resp ∅ = ([], Ret (∅, None))).
  { rewrite getZones_range_ok; rewrite Hinc; [done|].
    by intros k ?%elem_of_nil. }
  pose proof (getZones_listed c getter now resp _ _ _ HL Hr) as Hg.
  destruct (reload_fetched ParseZone range c getter why now
              (set_lastUpdate now c) ∅) as [Hreg Ho]; [by rewrite Hg|].
  rewrite map_size_empty in Hreg, Ho. cbn in Hreg, Ho.
  subst run. split; [done|]. split.
  - unfold reload, debug. rewrite Hg.
    destruct (debugOn c) eqn:Hd; cbn -[size]; rewrite ?Hd, map_size_empty;
      by cbn.
  - intros mux. by rewrite registered_registrations, Hreg.
Qed.

Lemma idle_cycle_witness :
  let run := reload TestZones.parser map_to_list
               (set_lastUpdate TestZones.t1 TestZones.conf)
               TestZones.untouched UpdateTimeout (TestZones.t1 + 1) in
  outcome run
  = Ret (set_lastUpdate (TestZones.t1 + 1)
           (set_lastUpdate TestZones.t1 TestZones.conf))
  ∧ fetched (trace run) = []
  ∧ ∀ mux, registered (trace run) mux = mux.
Proof.
  apply (idle_cycle TestZones.parser map_to_list
           (set_lastUpdate TestZones.t1 TestZones.conf)
           TestZones.untouched UpdateTimeout (TestZones.t1 + 1)
           [ mkZoneFile "zones/" (TestZones.t0 - 86400 * 1000000000);
             mkZoneFile "zones/abc.com" (TestZones.t0 - 86400 * 1000000000) ]).
  - reflexivity.
  - intros k Hk. each_record Hk ltac:(vm_compute; tauto).
Defined.

(** X12: two cycles in a row: when the first succeeds at time [now1] and
    the fetches of the second succeed, the second fetches exactly the
    listed objects, the prefix marker aside, that were last modified no
    earlier than one minute before [now1], in listing order. *)
Theorem consecutive_cycles {G} `{zoneGetter G} (c : config) (getter : G)
    (now1 now2 : Time) c1 zones1 resp :
  outcome (getZones c getter now1) = Ret (c1, zones1, None) →
  ListZones getter = Ok resp →
  (∀ k, k ∈ resp → ∃ b, fetch getter (Key k) = Ok b) →
  let recent k :=
    negb (bool_decide (Key k = prefix c))
    && bool_decide (now1 - 60 * 1000000000 ≤ LastModified k) in
  fetched (trace (getZones c1 getter now2)) = Key <$> List.filter recent resp
  ∧ ∃ zones2, outcome (getZones c1 getter now2)
              = Ret (set_lastUpdate now2 c1, zones2, None)
              ∧ dom zones2
                = list_to_set (zone_name c <$> List.filter recent resp).
Proof.
  intros Hg1 HL Hok recent.
  destruct (getZones_returns c getter now1)
    as (t & c' & z' & err & Hg & _ & Hc').
  rewrite Hg in Hg1. injection Hg1 as H1 H2 H3. rewrite H3 in Hc'.
  specialize (Hc' eq_refl). rewrite Hc' in H1. subst c1.
  set (c1 := set_lastUpdate now1 c).
  assert (Hinc : included c1 resp = List.filter recent resp).
  { unfold included. apply filter_ext. intros k. unfold recent, excluded, skew.
    rewrite bool_decide_or, negb_orb. cbn [prefix lastUpdate c1 set_lastUpdate].
    f_equal. rewrite <- bool_decide_not. apply bool_decide_ext. lia. }
  assert (Hok' : ∀ k, k ∈ included c1 resp → ∃ b, fetch getter (Key k) = Ok b).
  { intros k Hk. apply Hok. unfold included in Hk.
    apply list_elem_of_In, filter_In in Hk as [Hk _]. by apply list_elem_of_In. }
  rewrite (getZones_listed c1 getter now2 resp _ _ _ HL
             (getZones_range_ok c1 getter resp ∅ Hok')).
  cbn [trace outcome fst snd]. split.
  - unfold fetched. cbn [omap list_omap].
    fold (fetched (EvGetZone <$> (Key <$> included c1 resp))).
    by rewrite fetched_keys, Hinc.
  - eexists. split; [done|].
    rewrite (collect_dom c1 getter _ ∅ Hok'), dom_empty_L, Hinc.
    by rewrite (left_id_L ∅ (∪)).
Qed.

Lemma consecutive_cycles_witness :
  let c := set_lastUpdate (Unix 0 0) TestZones.conf in
  let c1 := set_lastUpdate TestZones.t0 c in
  fetched (trace (getZones c1 TestZones.bucket_listing TestZones.t1))
  = ["zones/flat.com"; "zones/new.com"].
Proof.
  refine (proj1 (consecutive_cycles (set_lastUpdate (Unix 0 0) TestZones.conf)
                   TestZones.bucket_listing TestZones.t0 TestZones.t1
                   (set_lastUpdate TestZones.t0
                      (set_lastUpdate (Unix 0 0) TestZones.conf))
                   {[ "abc.com" := TestZones.abcZone;
                      "flat.com" := TestZones.flatZone;
                      "new.com" := TestZones.abcZone ]}
                   [ mkZoneFile "zones/" (TestZones.t0 - 86400 * 1000000000);
                     mkZoneFile "zones/abc.com"
                       (TestZones.t0 - 86400 * 1000000000);
                     mkZoneFile "zones/flat.com"
                       (TestZones.t0 - 60 * 1000000000);
                     mkZoneFile "zones/new.com" (TestZones.t0 + 1) ]
                   _ _ _)).
  - by vm_compute.
  - reflexivity.
  - intros k _. eexists. reflexivity.
Defined.

Section FetchNames.

Context {G : Type} `{zoneGetter G}.

Lemma last_named_snoc (c : config) n l k :
  last_named c n (l ++ [k])
  = if bool_decide (zone_name c k = n) then Some k else last_named c n l.
Proof.
  unfold last_named. rewrite List.filter_app. cbn.
  destruct (bool_decide (zone_name c k = n)).
  - by rewrite last_snoc.
  - by rewrite app_nil_r.
Qed.

Lemma collect_lookup (c : config) (getter : G) l n :
  (∀ k, k ∈ l → ∃ b, fetch getter (Key k) = Ok b) →
  fold_left (collect c getter) l ∅ !! n
  = match last_named c n l with
    | Some k => match fetch getter (Key k) with
                | Ok b => Some b
                | Err _ => None
                end
    | None => None
    end.
Proof.
  induction l as [|k l IH] using rev_ind; intros Hok; [done|].
  rewrite fold_left_app, last_named_snoc. cbn [fold_left].
  destruct (Hok k) as [b Hb]; [apply elem_of_app; right; by left|].
  unfold collect at 1. rewrite Hb.
  destruct (bool_decide (zone_name c k = n)) eqn:Hn.
  - apply bool_decide_eq_true_1 in Hn. rewrite Hn, Hb.
    by rewrite lookup_insert_eq.
  - apply bool_decide_eq_false_1 in Hn. rewrite lookup_insert_ne by done.
    apply IH. intros k' Hk'. apply Hok, elem_of_app. by left.
Qed.

End FetchNames.

Lemma CutPrefix_app (p s : string) : CutPrefix (p +:+ s) p = Some s.
Proof.
  induction p as [|a p IH]; [by destruct s|].
  change (CutPrefix (String a p +:+ s) (String a p))
    with (if decide (a = a) then CutPrefix (p +:+ s) p else None).
  by destruct (decide (a = a)).
Qed.

(** X13: the map a successful [getZones] returns holds, under each zone
    name, the content of the last listed object it kept whose key gives
    that name, and nothing under any other name; the name of a key that
    starts with the configured prefix is the rest of the key, and a key
    that does not start with it is its own name. *)
Theorem getZones_names {G} `{zoneGetter G} (c : config) (getter : G)
    (now : Time) resp :
  ListZones getter = Ok resp →
  (∀ k, k ∈ included c resp → ∃ b, fetch getter (Key k) = Ok b) →
  (∃ zones,
     outcome (getZones c getter now) = Ret (set_lastUpdate now c, zones, None)
     ∧ ∀ n, zones !! n
            = match last_named c n (included c resp) with
              | Some k => match fetch getter (Key k) with
                          | Ok b => Some b
                          | Err _ => None
                          end
              | None => None
              end)
  ∧ (∀ k n, Key k = prefix c +:+ n → zone_name c k = n)
  ∧ (∀ k, CutPrefix (Key k) (prefix c) = None → zone_name c k = Key k).
Proof.
  intros HL Hok. split; [|split].
  - rewrite (getZones_listed c getter now resp _ _ _ HL
               (getZones_range_ok c getter resp ∅ Hok)).
    eexists. split; [done|]. intros n. by apply collect_lookup.
  - intros k n Hk. unfold zone_name, TrimPrefix. by rewrite Hk, CutPrefix_app.
  - intros k Hk. unfold zone_name, TrimPrefix. by rewrite Hk.
Qed.

Lemma getZones_names_witness :
  ∃ zones,
    outcome (getZones TestZones.synced TestZones.bucket_listing TestZones.t1)
    = Ret (set_lastUpdate TestZones.t1 TestZones.synced, zones, None)
    ∧ zones !! "new.com" = Some TestZones.abcZone
    ∧ zones !! "abc.com" = None.
Proof.
  assert (HL : ListZones TestZones.bucket_listing = Ok TestZones.listing)
    by reflexivity.
  destruct (proj1 (getZones_names TestZones.synced TestZones.bucket_listing
                     TestZones.t1 TestZones.listing HL
                     (λ k _, ex_intro _ _ eq_refl)))
    as (zones & Ho & Hz).
  exists zones. split; [exact Ho|]. split; rewrite Hz; by vm_compute.
Defined.

(** ** The S3 getter *)

Lemma listed_fold (contents : list S3Object) (acc : list zoneFile) :
  fold_left (λ zones k,
               zones ++ [mkZoneFile (Object_Key k) (Object_LastModified k)])
            contents acc
  = acc ++ (listed <$> contents).
Proof.
  revert acc. induction contents as [|o l IH]; intros acc; cbn.
  - by rewrite app_nil_r.
  - rewrite IH. by rewrite <- app_assoc.
Qed.

(** X14: [s3getter.ListZones] succeeds exactly when the service answers
    with a listing that holds at least one object, and then returns the
    objects' keys and dates in the order of the listing; so it never
    returns an empty list without an error, and it passes an error of the
    service on as it is. *)
Theorem s3_ListZones_result
    (ListObjects : ListObjectsInput → result ListObjectsOutput)
    (GetObject : string → string → string → result ReadCloser)
    (s : s3getter) :
  let q := mkListInput (s3_region s) (s3_bucket s) "/" (s3_prefix s) in
  (∀ zones,
     s3_ListZones ListObjects s = Ok zones
     ↔ ∃ contents, ListObjects q = Ok (mkListOutput (Some contents))
                   ∧ contents ≠ [] ∧ zones = listed <$> contents)
  ∧ (∀ zones, s3_ListZones ListObjects s = Ok zones → zones ≠ [])
  ∧ (∀ e, ListObjects q = Err e → s3_ListZones ListObjects s = Err e)
  ∧ (∀ key, s3_GetZone GetObject s key
            = GetObject (s3_region s) (s3_bucket s) key).
Proof.
  intros q.
  assert (Hiff : ∀ zones,
     s3_ListZones ListObjects s = Ok zones
     ↔ ∃ contents, ListObjects q = Ok (mkListOutput (Some contents))
                   ∧ contents ≠ [] ∧ zones = listed <$> contents).
  { intros zones. unfold s3_ListZones. fold q.
    destruct (ListObjects q) as [[[contents|]]|e]; cbn.
    - destruct contents as [|o l]; cbn.
      + split; [done|]. by intros (? & [= <-] & ? & _).
      + rewrite listed_fold. cbn. split.
        * intros [= <-]. by exists (o :: l).
        * by intros (? & [= <-] & _ & ->).
    - split; [done|]. by intros (? & [=] & _).
    - split; [done|]. by intros (? & [=] & _). }
  split; [exact Hiff|]. split; [|split].
  - intros zones (contents & _ & Hne & ->)%Hiff. by destruct contents.
  - intros e He. unfold s3_ListZones. fold q. by rewrite He.
  - done.
Qed.

(** ** Loading zones *)



(** ** Startup *)

Section StartupFacts.

Context {G : Type} `{zoneGetter G}.
Variable ParseZone : string → string → string → list Token.
Variable range : gmap string string → list (string * string).

Lemma preparing_silent t :
  Forall preparing t → started t = [] ∧ tally "started" t = 0.
Proof.
  unfold started, tally. induction 1 as [|e t He _ [IH1 IH2]]; [done|].
  destruct e; cbn in *; done.
Qed.

Lemma started_app t1 t2 : started (t1 ++ t2) = started t1 ++ started t2.
Proof. apply omap_app. Qed.

Lemma debug_preparing c m : Forall preparing (trace (debug c m)).
Proof. rewrite debug_spec. destruct (debugOn c); by repeat constructor. Qed.

Lemma getZones_preparing c (getter : G) now :
  Forall preparing (trace (getZones c getter now)).
Proof.
  destruct (ListZones getter) as [resp|e] eqn:HL.
  - destruct (getZones_range_returns c getter resp ∅) as (keys & zs & err & Hr).
    rewrite (getZones_listed _ _ _ _ _ _ _ HL Hr). cbn. constructor; [done|].
    clear Hr. induction keys; by constructor.
  - unfold getZones. rewrite HL, bind_emit. by repeat constructor.
Qed.

Lemma loadZone_preparing c nf :
  Forall preparing (trace (loadZone ParseZone c nf)).
Proof.
  destruct nf as [n f]. unfold loadZone.
  destruct (parses (ParseZone f n n)) eqn:Hp.
  - rewrite (parse_range_parses _ _ _ Hp), bind_ret.
    rewrite !debug_spec, !bind_Ret, bind_emit.
    destruct (debugOn c); by repeat constructor.
  - destruct (parse_range_fails n _ (mkZone n []) Hp) as [e ->].
    rewrite debug_spec, bind_Ret. unfold Fatal. rewrite bind_Exit.
    destruct (debugOn c); by repeat constructor.
Qed.

Lemma loadZones_preparing c zones :
  Forall preparing (trace (loadZones ParseZone range c zones)).
Proof.
  rewrite (proj1 (loadZones_loop ParseZone range c zones)).
  apply foldM_Forall. intros. apply loadZone_preparing.
Qed.

(** [loadZones] either returns without an error or ends the process. *)
Lemma loadZones_ends c zones :
  outcome (loadZones ParseZone range c zones) = Ret None
  ∨ ∃ e, outcome (loadZones ParseZone range c zones) = Exit e.
Proof.
  destruct (load_loop ParseZone c (range zones)) as [_ Ho].
  destruct (loadZones_loop ParseZone range c zones) as (_ & Hret & Hexit).
  destruct (forallb _ _).
  - left. by apply Hret.
  - right. destruct Ho as [e He]. exists e. by apply Hexit.
Qed.

(** The run of [startup], by how the fetch and the load end. *)
Lemma startup_run c (getter : G) now :
  let run := startup ParseZone range c getter now in
  ∃ pre,
    Forall preparing pre
    ∧ ((trace run = pre
        ∧ ∃ e, outcome run = Exit e
               ∧ ((∃ c' zs, outcome (getZones c getter now)
                            = Ret (c', zs, Some e))
                  ∨ ∃ zs, outcome (getZones c getter now)
                          = Ret (set_lastUpdate now c, zs, None)
                          ∧ outcome (loadZones ParseZone range
                                       (set_lastUpdate now c) zs)
                            = Exit e))
       ∨ ∃ zs tl,
           outcome (getZones c getter now)
           = Ret (set_lastUpdate now c, zs, None)
           ∧ loadZones ParseZone range (set_lastUpdate now c) zs
             = (tl, Ret None)
           ∧ outcome run = Ret (set_lastUpdate now c)
           ∧ registrations pre = registrations tl
           ∧ trace run
             = pre ++ EvHandleFunc "." VersionHandler
                   :: (if debugOn c then [EvLog (Str "Starting server...")]
                       else [])
                   ++ [EvStartServer (port c);
                       EvLog (Sprintf
                                "DNS server running on TCP/UDP port %s (v%s)"
                                [Str (port c); Str version]);
                       EvIncr "started" 1]).
Proof.
  intros run. subst run.
  pose proof (getZones_preparing c getter now) as Hpg.
  destruct (getZones_returns c getter now)
    as (tg & c' & zs & err & Hg & Hreg & Hc').
  rewrite Hg in Hpg. cbn [trace fst] in Hpg.
  unfold startup. rewrite debug_spec, bind_Ret, Hg, bind_Ret.
  cbn [trace outcome fst snd].
  destruct err as [e|].
  - unfold Fatal. cbn [trace outcome fst snd]. rewrite app_nil_r.
    eexists. split; [|left; split; [reflexivity|]].
    2: { exists e. split; [done|]. left. by exists c', zs. }
    apply Forall_app. split; [destruct (debugOn c); by repeat constructor|done].
  - specialize (Hc' eq_refl). subst c'.
    pose proof (loadZones_preparing (set_lastUpdate now c) zs) as Hpl.
    destruct (loadZones_ends (set_lastUpdate now c) zs) as [Ho|[e Ho]];
      destruct (loadZones ParseZone range (set_lastUpdate now c) zs)
        as [tl o] eqn:Hl;
      cbn [trace outcome fst snd] in Ho, Hpl; subst o;
      unfold Gauge, Incr, Printf, registerVersionHandler, startServer;
      rewrite !debug_spec; cbn [debugOn set_lastUpdate port].
    + exists ((if debugOn c then [EvLog (Str "Fetching zones...")] else [])
              ++ tg
              ++ EvGauge "zones" (Z.of_nat (size zs))
              :: (if debugOn c
                  then [EvLog (Sprintf "Fetched %d zones..."
                                       [Int (Z.of_nat (size zs))]);
                        EvLog (Str "Loading zones...")]
                  else [])
              ++ tl).
      split.
      { apply Forall_app. split; [destruct (debugOn c); by repeat constructor|].
        apply Forall_app. split; [done|]. constructor; [done|].
        apply Forall_app. split; [|done].
        destruct (debugOn c); by repeat constructor. }
      right. exists zs, tl. split; [done|]. split; [done|].
      split; [by destruct (debugOn c)|]. split.
      { destruct (debugOn c); rewrite !registrations_app, Hreg; by cbn. }
      destruct (debugOn c); cbn; rewrite <- ?app_assoc; cbn;
        by rewrite <- ?app_assoc.
    + exists ((if debugOn c then [EvLog (Str "Fetching zones...")] else [])
              ++ tg
              ++ EvGauge "zones" (Z.of_nat (size zs))
              :: (if debugOn c
                  then [EvLog (Sprintf "Fetched %d zones..."
                                       [Int (Z.of_nat (size zs))]);
                        EvLog (Str "Loading zones...")]
                  else [])
              ++ tl).
      split.
      { apply Forall_app. split; [destruct (debugOn c); by repeat constructor|].
        apply Forall_app. split; [done|]. constructor; [done|].
        apply Forall_app. split; [|done].
        destruct (debugOn c); by repeat constructor. }
      left. split.
      { destruct (debugOn c); cbn; by rewrite ?app_nil_r. }
      exists e. split; [by destruct (debugOn c)|]. right. exists zs.
      by rewrite Hl.
Qed.

End StartupFacts.

Lemma registered_app (t1 t2 : list Event) (mux : gmap string Handler) :
  registered (t1 ++ t2) mux = registered t2 (registered t1 mux).
Proof. apply fold_left_app. Qed.

(** X16: [main] starts the listeners exactly when the first fetch and the
    load both succeed, and it does so last: the start of the listeners on
    the configured port comes after every registration, the version handler
    included, and is counted once under [started].  A start that fails ends
    the process with no listener started and nothing counted; it never
    panics. *)
Theorem startup_listens_last {G} `{zoneGetter G}
    (ParseZone : string → string → string → list Token)
    (range : gmap string string → list (string * string))
    (c : config) (getter : G) (now : Time) (mux : gmap string Handler) :
  let run := startup ParseZone range c getter now in
  ((∃ e, outcome run = Exit e)
   ∧ started (trace run) = []
   ∧ tally "started" (trace run) = 0)
  ∨ (outcome run = Ret (set_lastUpdate now c)
     ∧ started (trace run) = [port c]
     ∧ tally "started" (trace run) = 1
     ∧ ∃ t1 t2, trace run = t1 ++ EvStartServer (port c) :: t2
                ∧ registrations t2 = []
                ∧ registered t1 mux !! "." = Some VersionHandler).
Proof.
  intros run. subst run.
  destruct (startup_run ParseZone range c getter now)
    as (pre & Hpre & [[Ht (e & He & _)]|(zs & tl & _ & _ & Ho & _ & Ht)]).
  - left. split; [by exists e|]. rewrite Ht. destruct (preparing_silent pre Hpre). done.
  - right. destruct (preparing_silent pre Hpre) as [Hs Hn].
    rewrite Ht. split; [done|]. split; [|split].
    + rewrite started_app, Hs. by destruct (debugOn c).
    + rewrite tally_app, Hn. by destruct (debugOn c).
    + exists (pre ++ EvHandleFunc "." VersionHandler
                  :: (if debugOn c then [EvLog (Str "Starting server...")]
                      else [])),
             [EvLog (Sprintf "DNS server running on TCP/UDP port %s (v%s)"
                             [Str (port c); Str version]);
              EvIncr "started" 1].
      split; [|split; [reflexivity|]].
      * rewrite <- app_assoc. by destruct (debugOn c).
      * rewrite registered_app. destruct (debugOn c); cbn;
          by rewrite lookup_insert_eq.
Qed.



(** ** The command line *)

Lemma list_ascii_of_string_app (a b : string) :
  list_ascii_of_string (a +:+ b)
  = list_ascii_of_string a ++ list_ascii_of_string b.
Proof.
  induction a as [|x a IH]; [done|].
  change (String x a +:+ b) with (String x (a +:+ b)). cbn. by rewrite IH.
Qed.

Lemma HasSuffix_app (a b : string) : HasSuffix (a +:+ b) b = true.
Proof.
  unfold HasSuffix. rewrite list_ascii_of_string_app.
  apply bool_decide_eq_true. by apply suffix_app_r.
Qed.

Lemma length_lt_1 (s : string) : (String.length s < 1)%nat ↔ s = "".
Proof. destruct s; cbn; split; try done; lia. Qed.

Lemma parseArgs_epoch
    (Parse : result (gmap string Value))
    (ParseDuration : string → Duration * option error)
    (Getenv : string → string) (s : settings) :
  outcome (parseArgs Parse ParseDuration Getenv) = Ret (s, None) →
  lastUpdate (engine s) = Unix 0 0 ∧ ∃ args, Parse = Ok args.
Proof.
  unfold parseArgs. destruct Parse as [args|e]; [|done].
  destruct (arg args "<bucket>") as [b| |]; [|done|done].
  destruct (arg args "--port") as [p| |]; [|done|done].
  destruct (arg args "--region") as [r| |]; [|done|done].
  destruct (arg args "--debug") as [|d|]; [done| |done].
  destruct (arg args "--update") as [u| |]; [|done|done].
  cbn [string_of bool_of]. rewrite !bind_ret.
  destruct (ParseDuration (u +:+ "s")) as [upd [e|]]; [done|].
  destruct (_ || _); [done|]. intros [= <-]. split; [done|by exists args].
Qed.

(** X18: when [parseArgs] returns without an error, both credentials are
    non-empty, the statsd prefix ends in a dot, the watermark is the Unix
    epoch, and each credential is the one given on the command line when
    there is one, the one of the environment otherwise; so an empty [-K] or
    [-S] is an error even when the environment holds the credentials. *)
Theorem parseArgs_success
    (Parse : result (gmap string Value))
    (ParseDuration : string → Duration * option error)
    (Getenv : string → string) (s : settings) :
  outcome (parseArgs Parse ParseDuration Getenv) = Ret (s, None) →
  awsKeyId s ≠ "" ∧ awsSecret s ≠ ""
  ∧ HasSuffix (statsdPrefix s) "." = true
  ∧ lastUpdate (engine s) = Unix 0 0
  ∧ ∃ args,
      Parse = Ok args
      ∧ awsKeyId s = match arg args "--awskey" with
                     | VString k => k
                     | _ => Getenv "AWS_ACCESS_KEY_ID"
                     end
      ∧ awsSecret s = match arg args "--awssecret" with
                      | VString k => k
                      | _ => Getenv "AWS_SECRET_ACCESS_KEY"
                      end.
Proof.
  unfold parseArgs. destruct Parse as [args|e]; [|done].
  destruct (arg args "<bucket>") as [b| |]; [|done|done].
  destruct (arg args "--port") as [p| |]; [|done|done].
  destruct (arg args "--region") as [r| |]; [|done|done].
  destruct (arg args "--debug") as [|d|]; [done| |done].
  destruct (arg args "--update") as [u| |]; [|done|done].
  cbn [string_of bool_of]. rewrite !bind_ret.
  destruct (ParseDuration (u +:+ "s")) as [upd [e|]]; [done|].
  set (key := match string_ok (arg args "--awskey") with
              | Some a => a
              | None => Getenv "AWS_ACCESS_KEY_ID"
              end).
  set (secret := match string_ok (arg args "--awssecret") with
                 | Some a => a
                 | None => Getenv "AWS_SECRET_ACCESS_KEY"
                 end).
  destruct (bool_decide (String.length key < 1)%nat) eqn:Hk; [done|].
  destruct (bool_decide (String.length secret < 1)%nat) eqn:Hs; [done|].
  apply bool_decide_eq_false in Hk, Hs. rewrite length_lt_1 in Hk, Hs.
  cbn [orb outcome ret snd]. intros [= <-]. cbn.
  split; [done|]. split; [done|]. split; [|split; [done|]].
  - destruct (string_ok (arg args "--statsd_prefix")) as [a|]; [|done].
    destruct (HasSuffix a ".") eqn:Ha; [done|]. apply HasSuffix_app.
  - exists args. split; [done|]. subst key secret.
    by destruct (arg args "--awskey"), (arg args "--awssecret").
Qed.

Lemma parseArgs_success_witness :
  ∃ s, outcome (parseArgs (Ok TestArgs.args) TestArgs.duration TestArgs.env)
       = Ret (s, None)
       ∧ awsKeyId s = "AKIAEXAMPLE" ∧ statsdPrefix s = "dns."
       ∧ HasSuffix (statsdPrefix s) "." = true
       ∧ lastUpdate (engine s) = Unix 0 0.
Proof.
  eexists. split; [by vm_compute|].
  split; [by vm_compute|]. split; [by vm_compute|].
  match goal with
  | |- HasSuffix (statsdPrefix ?s) _ = _ ∧ _ =>
      destruct (parseArgs_success (Ok TestArgs.args) TestArgs.duration
                  TestArgs.env s)
        as (_ & _ & Hp & Hu & _); [by vm_compute|]
  end.
  split; [exact Hp|exact Hu].
Defined.

(** ** From the command line to the first fetch *)

Section FirstFetch.

Variable ListObjects : ListObjectsInput → result ListObjectsOutput.
Variable GetObject : string → string → string → result ReadCloser.

#[local] Abbreviation s3 := (s3getter_zoneGetter ListObjects GetObject).
#[local] Abbreviation unmarked c :=
  (λ o : S3Object, negb (bool_decide (Object_Key o = prefix c))).

Lemma s3_ListZones_listed (s : s3getter) contents :
  ListObjects (mkListInput (s3_region s) (s3_bucket s) "/" (s3_prefix s))
  = Ok (mkListOutput (Some contents)) →
  contents ≠ [] →
  s3_ListZones ListObjects s = Ok (listed <$> contents).
Proof.
  intros HL Hne. unfold s3_ListZones. rewrite HL. cbn.
  destruct contents as [|o l]; [done|]. cbn. by rewrite listed_fold.
Qed.

Lemma included_first (c : config) (contents : list S3Object) :
  lastUpdate c = Unix 0 0 →
  (∀ o, o ∈ contents → Unix 0 0 - skew ≤ Object_LastModified o) →
  included c (listed <$> contents)
  = listed <$> List.filter (unmarked c) contents.
Proof.
  intros Hc. induction contents as [|o l IH]; intros Hd; [done|].
  cbn [fmap list_fmap List.filter]. rewrite included_cons.
  rewrite IH by (intros o' Ho'; apply Hd; by right).
  assert (Ho : bool_decide (excluded c (listed o))
               = bool_decide (Object_Key o = prefix c)).
  { apply bool_decide_ext. unfold excluded. cbn. rewrite Hc.
    specialize (Hd o (list_elem_of_here _ _)). split; [|by left].
    intros [?|?]; [done|lia]. }
  rewrite Ho. by destruct (bool_decide (Object_Key o = prefix c)).
Qed.

(** X19: the first fetch after [parseArgs] takes the whole bucket.  With
    the configuration [parseArgs] returns and the getter [main] builds from
    it, when the listing of the bucket is not empty, holds no object dated
    more than a minute before the Unix epoch, and its objects can be read,
    [getZones] fetches every listed object but the prefix marker, in the
    order of the listing, and returns a zone for each of their names with
    the watermark moved to the time of the fetch. *)
Theorem first_fetch_whole_bucket
    (Parse : result (gmap string Value))
    (ParseDuration : string → Duration * option error)
    (Getenv : string → string)
    (s : settings) (contents : list S3Object) (now : Time) :
  outcome (parseArgs Parse ParseDuration Getenv) = Ret (s, None) →
  let c := engine s in
  ListObjects (mkListInput (region c) (bucket c) "/" (prefix c))
  = Ok (mkListOutput (Some contents)) →
  contents ≠ [] →
  (∀ o, o ∈ contents → Unix 0 0 - skew ≤ Object_LastModified o) →
  (∀ o, o ∈ contents → Object_Key o ≠ prefix c →
        ∃ r b, GetObject (region c) (bucket c) (Object_Key o) = Ok r
               ∧ ReadAll r = Ok b) →
  let run := @getZones s3getter s3 c (main_getter c) now in
  fetched (trace run) = Object_Key <$> List.filter (unmarked c) contents
  ∧ ∃ zones,
      outcome run = Ret (set_lastUpdate now c, zones, None)
      ∧ dom zones
        = list_to_set ((λ o, TrimPrefix (Object_Key o) (prefix c))
                         <$> List.filter (unmarked c) contents).
Proof.
  intros Hp c HL Hne Hd Hread run.
  assert (Hc : lastUpdate c = Unix 0 0).
  { by destruct (parseArgs_epoch Parse ParseDuration Getenv s Hp). }
  pose proof (s3_ListZones_listed (main_getter c) contents HL Hne) as HZ.
  pose proof (included_first c contents Hc Hd) as Hinc.
  assert (Hok : ∀ k, k ∈ included c (listed <$> contents) →
                     ∃ b, @fetch s3getter s3 (main_getter c) (Key k) = Ok b).
  { intros k. rewrite Hinc. intros (o & -> & Ho)%list_elem_of_fmap.
    apply list_elem_of_In, filter_In in Ho as [Ho Hm].
    apply list_elem_of_In in Ho. apply negb_true_iff, bool_decide_eq_false in Hm.
    destruct (Hread o Ho Hm) as (r & b & Hr & Hb). exists b.
    unfold fetch. cbn. unfold s3_GetZone. cbn. by rewrite Hr. }
  pose proof (@getZones_listed s3getter s3 c (main_getter c) now _ _ _ _ HZ
                (@getZones_range_ok s3getter s3 c (main_getter c) _ ∅ Hok))
    as Hrun.
  fold run in Hrun. rewrite Hrun. split.
  - unfold fetched. cbn. rewrite Hinc, <- list_fmap_compose.
    generalize (List.filter (unmarked c) contents). intros l.
    induction l as [|x l IH]; [done|]. cbn. by rewrite IH.
  - eexists. split; [done|].
    rewrite (@collect_dom s3getter s3 c (main_getter c) _ ∅ Hok), dom_empty_L.
    rewrite (left_id_L ∅ (∪)), Hinc, <- list_fmap_compose. done.
Qed.

End FirstFetch.

Lemma first_fetch_whole_bucket_witness :
  ∃ s,
    outcome (parseArgs (Ok TestArgs.args) TestArgs.duration TestArgs.env)
    = Ret (s, None)
    ∧ let run := @getZones s3getter
                   (s3getter_zoneGetter TestArgs.bucket_objects TestArgs.object)
                   (engine s) (main_getter (engine s)) TestZones.t1 in
      fetched (trace run) = ["zones/abc.com"; "zones/flat.com"]
      ∧ ∃ zones,
          outcome run = Ret (set_lastUpdate TestZones.t1 (engine s), zones, None)
          ∧ dom zones = {[ "abc.com"; "flat.com" ]}.
Proof.
  eexists. split; [by vm_compute|].
  match goal with
  | |- let run := @getZones _ _ (engine ?s) _ _ in _ =>
      destruct (first_fetch_whole_bucket
                  TestArgs.bucket_objects TestArgs.object
                  (Ok TestArgs.args) TestArgs.duration TestArgs.env s
                  [ mkObject "zones/" TestZones.t0;
                    mkObject "zones/abc.com" TestZones.t0;
                    mkObject "zones/flat.com" TestZones.t1 ]
                  TestZones.t1)
        as (Hf & zones & Ho & Hd)
  end.
  - by vm_compute.
  - reflexivity.
  - done.
  - intros o Ho.
    repeat (apply elem_of_cons in Ho as [->|Ho]; [by vm_compute|]).
    by apply elem_of_nil in Ho.
  - intros o Ho Hm.
    apply elem_of_cons in Ho as [->|Ho]; [done|].
    apply elem_of_cons in Ho as [->|Ho]; [by eexists _, _|].
    apply elem_of_cons in Ho as [->|Ho]; [by eexists _, _|].
    by apply elem_of_nil in Ho.
  - cbv zeta. split; [exact Hf|]. exists zones. split; [exact Ho|].
    rewrite Hd. by vm_compute.
Defined.
